(** * tkgc: rank metrics, ranking evaluation, temporal-token index, resumption

    A shallow embedding of [src/utils.py]: the class [Metric], the functions
    [_p], [evaluate], [resume] and [checkpoint], and the construction of
    [t_idx] in [get_data].

    Conventions.
    - Python [int] is [Z]; Python [float] is IEEE binary64, the kernel's
      [float], so [+] and [/] on floats round exactly as CPython's do.
    - A method that mutates [self] is a computation in [M]: it takes the
      object's state and returns the outcome together with the state it
      leaves behind. An exception does not roll back the assignments that
      ran before it.
    - The tensor library (embedding arithmetic, [matmul], [cdist]) is an
      interface, [Tensor]; a score it returns is a finite float, which is a
      rational number, and only the order of scores is ever used. *)

From Stdlib Require Import ZArith QArith Qcanon Floats Ascii String.
From stdpp Require Import base list sorting gmap strings.

(** ** Exceptions and the state-and-exception monad *)

Inductive exn : Set :=
  | ZeroDivisionError
  | IndexError
  | KeyError
  | TypeError
  | ValueError
  | FileNotFoundError
  | FileExistsError
  | PermissionError
  | OSError.

Inductive result (A : Type) : Type :=
  | Ok (a : A)
  | Raise (e : exn).
Arguments Ok {A} a.
Arguments Raise {A} e.

Global Instance result_ret : MRet result := λ A a, Ok a.
Global Instance result_bind : MBind result := λ A B k r,
  match r with Ok a => k a | Raise e => Raise e end.
Global Instance result_fmap : FMap result := λ A B f r,
  match r with Ok a => Ok (f a) | Raise e => Raise e end.

Definition M (St A : Type) : Type := St → result A * St.

Global Instance M_ret {St} : MRet (M St) := λ A a st, (Ok a, st).
Global Instance M_bind {St} : MBind (M St) := λ A B k m st,
  match m st with
  | (Ok a, st') => k a st'
  | (Raise e, st') => (Raise e, st')
  end.

Definition lift {St A} (r : result A) : M St A := λ st, (r, st).
Definition get {St} : M St St := λ st, (Ok st, st).
Definition modify {St} (f : St → St) : M St unit := λ st, (Ok tt, f st).
Definition when {St} (c : bool) (m : M St unit) : M St unit :=
  if c then m else mret tt.

(** [for x in l: body(x)] *)
Fixpoint for_each {St A} (l : list A) (body : A → M St unit) : M St unit :=
  match l with
  | [] => mret tt
  | x :: l' => body x ;; for_each l' body
  end.

(** ** Numbers *)

(** [float(z)]: the binary64 value nearest to the integer [z], ties to even.
    This is CPython's conversion for every [z] of magnitude below
    [2^1024 - 2^970] and numpy's for every [int64]; ranks and counters are
    positions in, and sizes of, candidate lists, far below that bound, past
    which CPython raises OverflowError instead of rounding to infinity. *)
Definition float_of_int (z : Z) : float :=
  SF2Prim (binary_normalize prec emax z 0 false).

(** [x / b] for a float [x] and an int [b]. *)
Definition float_truediv (x : float) (b : Z) : result float :=
  if decide (b = 0%Z) then Raise ZeroDivisionError
  else Ok (x / float_of_int b)%float.

(** [a / b] for two ints; the quotient of the two conversions, which is
    CPython's correctly rounded quotient whenever both are below [2^53]. *)
Definition int_truediv (a b : Z) : result float :=
  float_truediv (float_of_int a) b.

(** ** class Metric *)

Module Metric.
Local Open Scope Z_scope.

Record t : Set := mk {
  cnt : Z;
  h_1 : Z;
  h_3 : Z;
  h_10 : Z;
  mr : Z;
  mrr : float
}.

(** [__init__]. [self.mrr = 0] is the int 0 until the first update adds a
    float to it; int 0 and float 0.0 give the same sums and quotients. *)
Definition __init__ : t := mk 0 0 0 0 0 0%float.

Definition set_cnt (v : Z) (self : t) : t :=
  mk v (h_1 self) (h_3 self) (h_10 self) (mr self) (mrr self).
Definition set_h_1 (v : Z) (self : t) : t :=
  mk (cnt self) v (h_3 self) (h_10 self) (mr self) (mrr self).
Definition set_h_3 (v : Z) (self : t) : t :=
  mk (cnt self) (h_1 self) v (h_10 self) (mr self) (mrr self).
Definition set_h_10 (v : Z) (self : t) : t :=
  mk (cnt self) (h_1 self) (h_3 self) v (mr self) (mrr self).
Definition set_mr (v : Z) (self : t) : t :=
  mk (cnt self) (h_1 self) (h_3 self) (h_10 self) v (mrr self).
Definition set_mrr (v : float) (self : t) : t :=
  mk (cnt self) (h_1 self) (h_3 self) (h_10 self) (mr self) v.

Definition _normalize (self : t)
  : result (float * float * float * float * float) :=
  a ← int_truediv (h_1 self) (cnt self);
  b ← int_truediv (h_3 self) (cnt self);
  c ← int_truediv (h_10 self) (cnt self);
  d ← int_truediv (mr self) (cnt self);
  e ← float_truediv (mrr self) (cnt self);
  mret (a, b, c, d, e).

(** [__str__]; [repr] is the formatting of a float inside an f-string and
    [nl] the newline character. *)
Definition nl : string := String "010"%char EmptyString.
Definition __str__ (repr : float → string) (self : t) : result string :=
  '(h1, h3, h10, m, rr) ← _normalize self;
  mret (String.concat EmptyString
    [nl; "H@1: "; repr h1; nl; "H@3: "; repr h3; nl; "H@10: "; repr h10;
     nl; "MR: "; repr m; nl; "MRR: "; repr rr; nl]).

(** [__iter__], consumed to the end as [dict(mtr)] does: the pairs it
    yields, or the exception its first [next] raises. *)
Definition __iter__ (self : t) : result (list (string * float)) :=
  '(h1, h3, h10, m, rr) ← _normalize self;
  mret [("metric/H1", h1); ("metric/H3", h3); ("metric/H10", h10);
        ("metric/MR", m); ("metric/MRR", rr)].

Definition update (r : Z) : M t unit :=
  modify (λ self, set_cnt (cnt self + 1) self) ;;
  when (bool_decide (r < 2)) (modify (λ self, set_h_1 (h_1 self + 1) self)) ;;
  when (bool_decide (r < 4)) (modify (λ self, set_h_3 (h_3 self + 1) self)) ;;
  when (bool_decide (r < 11)) (modify (λ self, set_h_10 (h_10 self + 1) self)) ;;
  modify (λ self, set_mr (mr self + r) self) ;;
  q ← lift (float_truediv 1%float r);
  modify (λ self, set_mrr (mrr self + q)%float self).

(** A sequence of updates, as the evaluation loop issues them. *)
Definition updates (rs : list Z) : M t unit := for_each rs update.

End Metric.

(** ** Command-line arguments ([get_args])

    Of the parsed arguments, the four that [_p], [evaluate] and [resume]
    read. *)

Inductive model_name : Set := TTransE | TADistMult | TATransE.
Inductive mode_name : Set := Head | Tail | Both.

Global Instance model_name_eq_dec : EqDecision model_name.
Proof. solve_decision. Defined.
Global Instance mode_name_eq_dec : EqDecision mode_name.
Proof. solve_decision. Defined.

Module Args.
Record t : Set := mk {
  model : model_name;
  l1 : bool;
  mode : mode_name;
  resume : string
}.
End Args.

Definition _p (args : Args.t) : nat :=
  if bool_decide (Args.model args = TTransE) && Args.l1 args then 1 else 2.

(** ** The tensor library and the embedding model *)

(** Row-wise tensor operations. [dot x w] is the entry of
    [torch.matmul(x, W.t())] for the rows [x] and [w]; [cdist p x w] is the
    entry of [torch.cdist(X, W, p)] for the rows [x] of [X] and [w] of [W]. *)
Class Tensor (vec : Type) : Type := {
  vadd : vec → vec → vec;
  vsub : vec → vec → vec;
  vmul : vec → vec → vec;
  dot : vec → vec → Qc;
  cdist : nat → vec → vec → Qc
}.

(** [mdl.module]: the entity embedding table and the relation and time
    embeddings, which belong to [src/models.py] and are opaque here. *)
Record module (vec : Type) : Type := {
  e_embed_weight : list vec;
  r_embed : nat → vec;
  t_embed : list nat → vec;
  rt_embed : nat → list nat → vec
}.
Arguments e_embed_weight {vec} _.
Arguments r_embed {vec} _ _.
Arguments t_embed {vec} _ _.
Arguments rt_embed {vec} _ _ _.

(** One row of a batch [b]: [b[i, 0]], [b[i, 1]], [b[i, 2]], [b[i, 3:]]
    (subject, object, relation, temporal ids). *)
Record triple : Set := Triple {
  col0 : nat;
  col1 : nat;
  col2 : nat;
  col3 : list nat
}.

(** [mdl.module.e_embed(ids)]: a lookup in the table, out of range an
    IndexError. *)
Definition e_embed {vec} (mdl : module vec) (ids : list nat)
  : result (list vec) :=
  mapM (λ i, match e_embed_weight mdl !! i with
             | Some v => Ok v
             | None => Raise IndexError
             end) ids.

(** ** Ranking *)

(** Entry [i] of a row of scores. *)
Definition score (row : list Qc) (i : nat) : Qc := default 0%Qc (row !! i).

(** [i] comes no later than [j] in descending order of score. *)
Definition desc (row : list Qc) : relation nat :=
  λ i j, (score row j ≤ score row i)%Qc.

Global Instance desc_dec row : RelDecision (desc row).
Proof. intros i j. unfold desc. apply _. Defined.

(** [row.argsort(descending=True)]: the indices of [row], highest score
    first. torch leaves the order of equal scores open, and so does the
    merge sort used here ([2; 1; 1] gives [0; 2; 1]): for a row with ties
    this is one of the orders torch may return, not necessarily the one
    it does return. Every general theorem below uses no more than that
    the result is a permutation of the indices in descending order of
    score. *)
Definition argsort_desc (row : list Qc) : list nat :=
  merge_sort (desc row) (seq 0 (length row)).

(** [np.argwhere(row == x)]: the positions of [x] in [row], ascending. *)
Definition argwhere (row : list nat) (x : nat) : list nat :=
  filter (λ k, row !! k = Some x) (seq 0 (length row)).

(** [np.argwhere(row == x)[0, 0]] *)
Definition argwhere_0_0 (row : list nat) (x : nat) : result nat :=
  match argwhere row x with
  | k :: _ => Ok k
  | [] => Raise IndexError
  end.

(** [rows[i]] *)
Definition getitem {A} (rows : list A) (i : nat) : result A :=
  match rows !! i with
  | Some x => Ok x
  | None => Raise IndexError
  end.

(** [for i, x in enumerate(xs): mtr.update(np.argwhere(rows[i] == x)[0, 0] + 1)] *)
Definition record_ranks (rows : list (list nat)) (xs : list nat)
  : M Metric.t unit :=
  for_each (imap pair xs) (λ '(i, x),
    row ← lift (getitem rows i);
    k ← lift (argwhere_0_0 row x);
    Metric.update (Z.of_nat k + 1)).

Definition evaluate {vec} `{Tensor vec}
    (args : Args.t) (b : list triple) (mdl : module vec) : M Metric.t unit :=
  let ts_r := col2 <$> b in
  let ts_t := col3 <$> b in
  let rt_embed :=
    if bool_decide (Args.model args = TTransE)
    then zip_with vadd (r_embed mdl <$> ts_r) (t_embed mdl <$> ts_t)
    else zip_with (rt_embed mdl) ts_r ts_t in
  (if bool_decide (Args.mode args ≠ Tail) then
     o_embed ← lift (e_embed mdl (col1 <$> b));
     let s_r :=
       if bool_decide (Args.model args = TADistMult) then
         let ort := zip_with vmul rt_embed o_embed in
         (λ x, argsort_desc (dot x <$> e_embed_weight mdl)) <$> ort
       else
         let ort := zip_with vsub o_embed rt_embed in
         (λ x, argsort_desc ((λ w, cdist (_p args) w x) <$> e_embed_weight mdl))
           <$> ort in
     record_ranks s_r (col0 <$> b)
   else mret tt) ;;
  (if bool_decide (Args.mode args ≠ Head) then
     s_embed ← lift (e_embed mdl (col0 <$> b));
     let o_r :=
       if bool_decide (Args.model args = TADistMult) then
         let srt := zip_with vmul s_embed rt_embed in
         (λ x, argsort_desc (dot x <$> e_embed_weight mdl)) <$> srt
       else
         let srt := zip_with vadd s_embed rt_embed in
         (λ x, argsort_desc (cdist (_p args) x <$> e_embed_weight mdl))
           <$> srt in
     record_ranks o_r (col1 <$> b)
   else mret tt).

(** One-dimensional embeddings over the rationals: every operation is
    exact, and the distance between two points is the same for every [p]. *)
Definition abs_Qc (x : Qc) : Qc := if decide (0 ≤ x)%Qc then x else (- x)%Qc.
Global Instance Tensor_Qc : Tensor Qc := {|
  vadd := Qcplus;
  vsub := Qcminus;
  vmul := Qcmult;
  dot := Qcmult;
  cdist := λ _ x w, abs_Qc (x - w)%Qc
|}.

Definition qc (a : Z) (b : positive) : Qc := Q2Qc (a # b).

(** Three entities on a line at 0, 1 and 3; every relation-time embedding
    is a translation by 1 ([r_embed + t_embed] for TTransE, [rt_embed] for
    TATransE). *)
Definition line_mdl : module Qc := {|
  e_embed_weight := [qc 0 1; qc 1 1; qc 3 1];
  r_embed := λ _, qc 1 1;
  t_embed := λ _, qc 0 1;
  rt_embed := λ _ _, qc 1 1
|}.

(** Four entities embedded as 0.9, 0.1, 0.5 and 0.3, and the relation-time
    embedding 10/9: for the subject 0 the product [s_embed * rt_embed] is 1
    and the score of every candidate is its own embedding. *)
Definition toy_mdl : module Qc := {|
  e_embed_weight := [qc 9 10; qc 1 10; qc 5 10; qc 3 10];
  r_embed := λ _, qc 0 1;
  t_embed := λ _, qc 0 1;
  rt_embed := λ _ _, qc 10 9
|}.

(** *** What one row of a batch contributes

    [evaluate] works on whole batches; the definitions below name, for one
    row, the scores of the candidates and the rank handed to
    [Metric.update], so that the theorems can speak about them. *)

(** The relation-time embedding of a row. *)
Definition rt_of {vec} `{Tensor vec} (args : Args.t) (mdl : module vec)
    (x : triple) : vec :=
  if bool_decide (Args.model args = TTransE)
  then vadd (r_embed mdl (col2 x)) (t_embed mdl (col3 x))
  else rt_embed mdl (col2 x) (col3 x).

(** Tail-ranking: the score (TADistMult) or distance (otherwise) of every
    candidate object for the row [x], whose subject embeds as [s_embed]. *)
Definition tail_scores {vec} `{Tensor vec} (args : Args.t) (mdl : module vec)
    (s_embed : vec) (x : triple) : list Qc :=
  if bool_decide (Args.model args = TADistMult)
  then dot (vmul s_embed (rt_of args mdl x)) <$> e_embed_weight mdl
  else cdist (_p args) (vadd s_embed (rt_of args mdl x))
         <$> e_embed_weight mdl.

Definition tail_row {vec} `{Tensor vec} (args : Args.t) (mdl : module vec)
    (x : triple) : result (list Qc) :=
  s_embed ← getitem (e_embed_weight mdl) (col0 x);
  mret (tail_scores args mdl s_embed x).

(** Head-ranking: the same for every candidate subject, given the
    embedding [o_embed] of the object. *)
Definition head_scores {vec} `{Tensor vec} (args : Args.t) (mdl : module vec)
    (o_embed : vec) (x : triple) : list Qc :=
  if bool_decide (Args.model args = TADistMult)
  then dot (vmul (rt_of args mdl x) o_embed) <$> e_embed_weight mdl
  else (λ w, cdist (_p args) w (vsub o_embed (rt_of args mdl x)))
         <$> e_embed_weight mdl.

Definition head_row {vec} `{Tensor vec} (args : Args.t) (mdl : module vec)
    (x : triple) : result (list Qc) :=
  o_embed ← getitem (e_embed_weight mdl) (col1 x);
  mret (head_scores args mdl o_embed x).

(** [np.argwhere(row.argsort(descending=True) == x)[0, 0] + 1] *)
Definition rank_of (row : list Qc) (x : nat) : result Z :=
  k ← argwhere_0_0 (argsort_desc row) x;
  mret (Z.of_nat k + 1)%Z.

Definition tail_rank {vec} `{Tensor vec} (args : Args.t) (mdl : module vec)
    (x : triple) : result Z :=
  row ← tail_row args mdl x; rank_of row (col1 x).

Definition head_rank {vec} `{Tensor vec} (args : Args.t) (mdl : module vec)
    (x : triple) : result Z :=
  row ← head_row args mdl x; rank_of row (col0 x).

(** The number of candidates whose entry in [row] is strictly above, and
    strictly below, that of candidate [x]. *)
Definition count_above (row : list Qc) (x : nat) : nat :=
  length (filter (λ j, (score row x < score row j)%Qc) (seq 0 (length row))).
Definition count_below (row : list Qc) (x : nat) : nat :=
  length (filter (λ j, (score row j < score row x)%Qc) (seq 0 (length row))).

(** No two candidates have the same entry. *)
Definition pairwise_distinct (row : list Qc) : Prop :=
  ∀ i j, i < length row → j < length row → i ≠ j → score row i ≠ score row j.

(** What [evaluate] records for one row: [r] is one more than the first
    position [k] of the true entity [y] in the descending sort of [scores],
    and [k] is the number of strictly higher entries when no two are equal. *)
Definition recorded (scores : list Qc) (y : nat) (r : Z) : Prop :=
  ∃ k, r = (Z.of_nat k + 1)%Z
     ∧ argsort_desc scores !! k = Some y
     ∧ (∀ j, j < k → argsort_desc scores !! j ≠ Some y)
     ∧ (pairwise_distinct scores → k = count_above scores y).

(** Every subject and object of the batch is an entity of the table. *)
Definition in_vocabulary {vec} (mdl : module vec) (b : list triple) : Prop :=
  Forall (λ x, col0 x < length (e_embed_weight mdl)
             ∧ col1 x < length (e_embed_weight mdl)) b.

(** ** The temporal-token index of [get_data] *)

Section t_idx.
Context {tok : Type} `{Countable tok}.
Context (tok_le : relation tok) `{!RelDecision tok_le}.

(** A 3-d array of shape [(length planes, shape1, shape2)]: a list of
    planes, each a list of [shape1] rows of [shape2] entries. The three
    datasets are taken as the arrays numpy converts them to ([src/data.py]
    is not among the sources). The shape is kept beside the entries
    because an array without planes or without rows still has one. *)
Record ndarray : Type := NdArray {
  planes : list (list (list tok));
  shape1 : nat;
  shape2 : nat
}.

(** The entries fill the shape: numpy has no ragged arrays. *)
Definition rectangular (a : ndarray) : Prop :=
  Forall (λ plane, length plane = shape1 a
                   ∧ Forall (λ row, length row = shape2 a) plane) (planes a).

(** [np.concatenate([x, y, z], axis=1)]: the arrays must agree on every
    axis but axis 1. *)
Definition np_concatenate_axis1 (x y z : ndarray) : result ndarray :=
  if decide (length (planes x) = length (planes y)
             ∧ length (planes y) = length (planes z)
             ∧ shape2 x = shape2 y ∧ shape2 y = shape2 z)
  then Ok {| planes := zip_with app (planes x)
                         (zip_with app (planes y) (planes z));
             shape1 := shape1 x + shape1 y + shape1 z;
             shape2 := shape2 x |}
  else Raise ValueError.

(** [a[0, :, 3:].flatten()] *)
Definition temporal_columns (a : ndarray) : result (list tok) :=
  plane ← getitem (planes a) 0;
  mret (concat (drop 3 <$> plane)).

(** Dropping repeated neighbours of a sorted list. *)
Fixpoint squash (l : list tok) : list tok :=
  match l with
  | [] => []
  | x :: l' =>
      match l' with
      | y :: _ => if decide (x = y) then squash l' else x :: squash l'
      | [] => [x]
      end
  end.

(** [np.unique(l)]: the sorted distinct elements. *)
Definition np_unique (l : list tok) : list tok :=
  squash (merge_sort tok_le l).

(** [{e: i for i, e in enumerate(l)}] *)
Definition dict_of_enumerate (l : list tok) : gmap tok nat :=
  foldl (λ d '(i, e), <[e := i]> d) ∅ (imap pair l).

(** The temporal tokens of one split: columns 3 and up of plane 0. *)
Definition tokens_of (a : ndarray) : list tok :=
  concat (drop 3 <$> default [] (planes a !! 0)).

(** The tokens [get_data] indexes. *)
Definition all_tokens (tr_ds vd_ds ts_ds : ndarray) : result (list tok) :=
  a ← np_concatenate_axis1 tr_ds vd_ds ts_ds;
  temporal_columns a.

(** [t_idx] and [t_idx_ln] of [get_data]. *)
Definition t_idx (tr_ds vd_ds ts_ds : ndarray) : result (gmap tok nat) :=
  l ← all_tokens tr_ds vd_ds ts_ds;
  mret (dict_of_enumerate (np_unique l)).

Definition t_idx_ln (tr_ds vd_ds ts_ds : ndarray) : result nat :=
  d ← t_idx tr_ds vd_ds ts_ds;
  mret (size d).

End t_idx.

Arguments ndarray : clear implicits.
Arguments NdArray {tok} planes shape1 shape2.

(** Three small splits with integer tokens, one plane each: rows
    [s o r t1 t2]. *)
Definition tr_ex : ndarray nat :=
  NdArray [[[0; 1; 0; 14; 3]; [1; 2; 0; 15; 1]]] 2 5.
Definition vd_ex : ndarray nat := NdArray [[[0; 2; 1; 13; 3]]] 1 5.
Definition ts_ex : ndarray nat := NdArray [[[2; 0; 1; 16; 12]]] 1 5.

(** A validation split whose rows are one entry shorter. *)
Definition vd_short_ex : ndarray nat := NdArray [[[0; 2; 1; 13]]] 1 4.

(** ** resume *)

Section resume.
Context {state_dict : Type}.

(** The values a checkpoint dictionary holds. *)
Inductive pyobj : Type :=
  | PInt (z : Z)
  | PFloat (x : float)
  | PState (sd : state_dict).

(** What [resume] reads from outside: the file system, [torch.load],
    [load_state_dict] (each may raise) and [torch.cuda.is_available()]. *)
Record runtime : Type := {
  os_path_exists : string → bool;
  torch_load : string → result (gmap string pyobj);
  load_state_dict : state_dict → pyobj → result state_dict;
  cuda_is_available : bool
}.

(** What [resume] may change: the states of [mdl], [opt] and [amp], and
    the list of paths handed to [torch.load], latest first. *)
Record objects : Type := {
  mdl : state_dict;
  opt : state_dict;
  amp : state_dict;
  loads : list string
}.

(** [d[k]] *)
Definition dict_getitem (d : gmap string pyobj) (k : string) : result pyobj :=
  match d !! k with
  | Some v => Ok v
  | None => Raise KeyError
  end.

Definition set_mdl (v : state_dict) (w : objects) : objects :=
  {| mdl := v; opt := opt w; amp := amp w; loads := loads w |}.
Definition set_opt (v : state_dict) (w : objects) : objects :=
  {| mdl := mdl w; opt := v; amp := amp w; loads := loads w |}.
Definition set_amp (v : state_dict) (w : objects) : objects :=
  {| mdl := mdl w; opt := opt w; amp := v; loads := loads w |}.
Definition log_load (path : string) (w : objects) : objects :=
  {| mdl := mdl w; opt := opt w; amp := amp w; loads := path :: loads w |}.

(** [x.load_state_dict(ckpt[k])] for the object [x] read by [rd] and
    written by [wr]. *)
Definition load_into (rt : runtime) (ckpt : gmap string pyobj) (k : string)
    (rd : objects → state_dict) (wr : state_dict → objects → objects)
  : M objects unit :=
  v ← lift (dict_getitem ckpt k);
  w ← get;
  sd ← lift (load_state_dict rt (rd w) v);
  modify (wr sd).

Definition resume (rt : runtime) (args : Args.t) : M objects (pyobj * pyobj) :=
  if negb (os_path_exists rt (Args.resume args))
  then lift (Raise FileNotFoundError)
  else
    modify (log_load (Args.resume args)) ;;
    ckpt ← lift (torch_load rt (Args.resume args));
    load_into rt ckpt "mdl" mdl set_mdl ;;
    load_into rt ckpt "opt" opt set_opt ;;
    (if cuda_is_available rt
     then load_into rt ckpt "amp" amp set_amp
     else mret tt) ;;
    e ← lift (dict_getitem ckpt "e");
    bst_ls ← lift (dict_getitem ckpt "bst_ls");
    mret (e, bst_ls).

End resume.

Arguments pyobj : clear implicits.
Arguments runtime : clear implicits.
Arguments objects : clear implicits.

(** ** checkpoint *)

(** The values of parsed arguments. *)
Inductive argval : Type :=
  | AInt (z : Z)
  | AFloat (x : float)
  | ABool (b : bool)
  | AStr (s : string).

Definition model_str (m : model_name) : string :=
  match m with
  | TTransE => "TTransE"
  | TADistMult => "TADistMult"
  | TATransE => "TATransE"
  end.

Definition mode_str (m : mode_name) : string :=
  match m with Head => "head" | Tail => "tail" | Both => "both" end.

(** The namespace [get_args] returns, every attribute. [dropout] and
    [weight_decay] are the int 0 by default and a float when given on the
    command line. *)
Module Namespace.
Record t : Type := mk {
  dataset : string;
  model : model_name;
  dropout : argval;
  l1 : bool;
  embedding_size : Z;
  margin : Z;
  learning_rate : float;
  weight_decay : argval;
  epochs : Z;
  batch_size : Z;
  negative_samples : Z;
  filter : bool;
  resume : string;
  deterministic : bool;
  opt_level : string;
  test : bool;
  mode : mode_name;
  log_frequency : Z;
  workers : Z;
  local_rank : Z;
  world_size : Z
}.

(** [vars(args).items()], in the order the attributes were set. *)
Definition vars (args : t) : list (string * argval) :=
  [("dataset", AStr (dataset args));
   ("model", AStr (model_str (model args)));
   ("dropout", dropout args);
   ("l1", ABool (l1 args));
   ("embedding_size", AInt (embedding_size args));
   ("margin", AInt (margin args));
   ("learning_rate", AFloat (learning_rate args));
   ("weight_decay", weight_decay args);
   ("epochs", AInt (epochs args));
   ("batch_size", AInt (batch_size args));
   ("negative_samples", AInt (negative_samples args));
   ("filter", ABool (filter args));
   ("resume", AStr (resume args));
   ("deterministic", ABool (deterministic args));
   ("opt_level", AStr (opt_level args));
   ("test", ABool (test args));
   ("mode", AStr (mode_str (mode args)));
   ("log_frequency", AInt (log_frequency args));
   ("workers", AInt (workers args));
   ("local_rank", AInt (local_rank args));
   ("world_size", AInt (world_size args))].

(** The four attributes [_p], [evaluate] and [resume] read. *)
Definition to_args (args : t) : Args.t :=
  Args.mk (model args) (l1 args) (mode args) (resume args).
End Namespace.

(** [sorted] on pairs whose first components are distinct strings compares
    those only, by code point. *)
Definition by_key : relation (string * argval) := λ x y, String.le x.1 y.1.

Global Instance by_key_dec : RelDecision by_key.
Proof. intros x y. unfold by_key. apply _. Defined.

Section checkpoint.
Context {state_dict : Type}.

(** [os.path.join] and the formatting of a value inside an f-string. *)
Variable os_path_join : string → string → string.
Variable str : argval → string.

(** The files [torch.save] wrote, by path, and the directories made. *)
Record disk : Type := {
  files : gmap string (gmap string (pyobj state_dict));
  dirs : gset string
}.

(** What the operating system answers when [checkpoint] asks it to write:
    each call goes through, or raises (FileExistsError when the path of
    the directory is a file, PermissionError, another OSError, ...). *)
Record filesystem : Type := {
  makedirs_outcome : disk → string → result unit;
  save_outcome : disk → string → result unit;
  copyfile_outcome : disk → string → string → result unit
}.

Definition inc : list string :=
  ["model"; "dropout"; "l1"; "embedding_size"; "margin"; "learning_rate";
   "weight_decay"; "negative_samples"].

(** [fn] of [checkpoint] *)
Definition fn (args : Namespace.t) : string :=
  String.concat "-"
    ((λ x, x.1 +:+ "_" +:+ str x.2)
       <$> merge_sort by_key
             (filter (λ x, x.1 ∈ inc) (Namespace.vars args)))
  +:+ ".ckpt".

(** [os.makedirs(path, exist_ok=True)] *)
Definition os_makedirs (fs : filesystem) (path : string) : M disk unit :=
  d ← get;
  lift (makedirs_outcome fs d path) ;;
  modify (λ d, {| files := files d; dirs := {[path]} ∪ dirs d |}).

(** [torch.save(obj, path)] *)
Definition torch_save (fs : filesystem)
    (obj : gmap string (pyobj state_dict)) (path : string) : M disk unit :=
  d ← get;
  lift (save_outcome fs d path) ;;
  modify (λ d, {| files := <[path := obj]> (files d); dirs := dirs d |}).

(** [shutil.copyfile(src, dst)] *)
Definition shutil_copyfile (fs : filesystem) (src dst : string)
  : M disk unit :=
  d ← get;
  match files d !! src with
  | Some obj =>
      lift (copyfile_outcome fs d src dst) ;;
      modify (λ d, {| files := <[dst := obj]> (files d); dirs := dirs d |})
  | None => lift (Raise FileNotFoundError)
  end.

(** The dictionary [checkpoint] saves; [cuda] is
    [torch.cuda.is_available()]. *)
Definition checkpoint_dict (cuda : bool) (e : Z) (w : objects state_dict)
    (bst_ls : pyobj state_dict) : gmap string (pyobj state_dict) :=
  let ckpt : gmap string (pyobj state_dict) :=
    <["bst_ls" := bst_ls]> (<["opt" := PState (opt w)]>
      (<["mdl" := PState (mdl w)]> (<["e" := PInt e]> ∅))) in
  if cuda then <["amp" := PState (amp w)]> ckpt else ckpt.

(** The two paths [checkpoint] writes to: the file of epoch [e] and the
    file of the best model so far. *)
Definition epoch_file (args : Namespace.t) (e : Z) : string :=
  os_path_join (os_path_join "./models" (Namespace.dataset args))
    ("e_" +:+ str (AInt e) +:+ "-" +:+ fn args).
Definition bst_file (args : Namespace.t) : string :=
  os_path_join (os_path_join "./models" (Namespace.dataset args))
    ("bst-" +:+ fn args).

Definition checkpoint (fs : filesystem) (cuda : bool) (args : Namespace.t)
    (e : Z) (w : objects state_dict) (bst_ls : pyobj state_dict)
    (is_bst : bool) : M disk unit :=
  let ckpt := checkpoint_dict cuda e w bst_ls in
  let bpth := os_path_join "./models" (Namespace.dataset args) in
  os_makedirs fs bpth ;;
  torch_save fs ckpt (epoch_file args e) ;;
  if is_bst then shutil_copyfile fs (epoch_file args e) (bst_file args)
  else mret tt.

(** The runtime finds on [d] every file written there. *)
Definition reads (rt : runtime state_dict) (d : disk) : Prop :=
  ∀ path obj, files d !! path = Some obj →
    os_path_exists rt path = true ∧ torch_load rt path = Ok obj.

(** [load_state_dict] puts the state dictionary it is given in place. *)
Definition installs (rt : runtime state_dict) : Prop :=
  ∀ cur sd, load_state_dict rt cur (PState sd) = Ok sd.

(** A runtime that sees the files of [d] and nothing else. *)
Definition disk_runtime (cuda : bool) (d : disk) : runtime state_dict := {|
  os_path_exists := λ path, bool_decide (is_Some (files d !! path));
  torch_load := λ path,
    match files d !! path with
    | Some obj => Ok obj
    | None => Raise FileNotFoundError
    end;
  load_state_dict := λ _ v,
    match v with PState sd => Ok sd | _ => Raise TypeError end;
  cuda_is_available := cuda
|}.

End checkpoint.

Arguments disk : clear implicits.
Arguments filesystem : clear implicits.


(** A small run for the examples: paths joined with a slash, values
    printed by a stand-in for [str], the default arguments of [get_args]
    for the data set icews14 and the model TTransE (the learning rate is
    the binary64 value of 0.001), and state dictionaries that are
    numbers. *)
Definition join_ex (p q : string) : string := p +:+ "/" +:+ q.
Definition str_ex (v : argval) : string :=
  match v with
  | AStr s => s
  | ABool true => "True"
  | ABool false => "False"
  | AInt _ => "int"
  | AFloat _ => "float"
  end.
Definition args_ex : Namespace.t := {|
  Namespace.dataset := "icews14";
  Namespace.model := TTransE;
  Namespace.dropout := AInt 0;
  Namespace.l1 := false;
  Namespace.embedding_size := 128;
  Namespace.margin := 1;
  Namespace.learning_rate := 0x1.0624dd2f1a9fcp-10%float;
  Namespace.weight_decay := AInt 0;
  Namespace.epochs := 1000;
  Namespace.batch_size := 512;
  Namespace.negative_samples := 1;
  Namespace.filter := true;
  Namespace.resume := EmptyString;
  Namespace.deterministic := false;
  Namespace.opt_level := "O0";
  Namespace.test := false;
  Namespace.mode := Both;
  Namespace.log_frequency := 100;
  Namespace.workers := 1;
  Namespace.local_rank := 0;
  Namespace.world_size := 1
|}.
Definition trained_ex : objects nat :=
  {| mdl := 11; opt := 12; amp := 13; loads := [] |}.
Definition fresh_ex : objects nat :=
  {| mdl := 1; opt := 2; amp := 3; loads := [] |}.
(** A file system on which every write goes through, and one on which
    [torch.save] is refused. *)
Definition fs_ex : filesystem nat := {|
  makedirs_outcome := λ _ _, Ok tt;
  save_outcome := λ _ _, Ok tt;
  copyfile_outcome := λ _ _ _, Ok tt
|}.
Definition fs_readonly_ex : filesystem nat := {|
  makedirs_outcome := λ _ _, Ok tt;
  save_outcome := λ _ _, Raise PermissionError;
  copyfile_outcome := λ _ _ _, Raise PermissionError
|}.
Definition disk_ex (cuda : bool) : disk nat :=
  snd (checkpoint join_ex str_ex fs_ex cuda args_ex 7 trained_ex
         (PFloat 0.5%float) true {| files := ∅; dirs := ∅ |}).
(** * Theorems *)

(** ** Metric *)

Module MetricFacts.
Import Metric.
Local Open Scope Z_scope.

(** A decimal literal such as [1.7] denotes the nearest binary64 value, as
    it does in Python. *)
Local Set Warnings "-inexact-float".

(** What an update leaves behind when the division is defined. *)
Lemma update_nonzero (r : Z) (self : t) :
  r ≠ 0 →
  update r self =
    (Ok tt,
     mk (cnt self + 1)
        (if bool_decide (r < 2) then h_1 self + 1 else h_1 self)
        (if bool_decide (r < 4) then h_3 self + 1 else h_3 self)
        (if bool_decide (r < 11) then h_10 self + 1 else h_10 self)
        (mr self + r)
        (mrr self + 1 / float_of_int r)%float).
Proof.
  intros Hr. unfold update, mbind, M_bind, modify, when, lift, float_truediv.
  destruct (decide (r = 0)) as [|_]; [done|].
  by destruct (bool_decide (r < 2)), (bool_decide (r < 4)),
    (bool_decide (r < 11)).
Qed.

(** What an update leaves behind when it divides by zero. *)
Lemma update_zero (self : t) :
  update 0 self =
    (Raise ZeroDivisionError,
     mk (cnt self + 1) (h_1 self + 1) (h_3 self + 1) (h_10 self + 1)
        (mr self + 0) (mrr self)).
Proof. reflexivity. Qed.

(** C4: for every rank [r >= 1] an update returns normally, adds one to
    [cnt], adds one to [h_1], [h_3], [h_10] exactly when [r < 2], [r < 4],
    [r < 11], adds [r] to [mr] and the float [1.0 / r] to [mrr]; the record
    has no other field. *)
Theorem update_rank (r : Z) (self : t) :
  1 ≤ r →
  update r self =
    (Ok tt,
     {| cnt := cnt self + 1;
        h_1 := h_1 self + (if bool_decide (r < 2) then 1 else 0);
        h_3 := h_3 self + (if bool_decide (r < 4) then 1 else 0);
        h_10 := h_10 self + (if bool_decide (r < 11) then 1 else 0);
        mr := mr self + r;
        mrr := (mrr self + 1 / float_of_int r)%float |}).
Proof.
  intros Hr. rewrite update_nonzero by lia.
  repeat case_bool_decide; by rewrite ?Z.add_0_r.
Qed.

Lemma update_rank_witness :
  update 3 __init__ = (Ok tt, mk 1 0 1 1 3 (0 + 1 / 3)%float).
Proof. apply (update_rank 3 __init__). lia. Defined.

(** C8: [update(0)] raises ZeroDivisionError only after [cnt], [h_1], [h_3]
    and [h_10] were incremented and [mr += 0] ran, and the state it leaves
    is not the state it was given. *)
Theorem update_zero_mutates (self : t) :
  update 0 self =
    (Raise ZeroDivisionError,
     {| cnt := cnt self + 1; h_1 := h_1 self + 1; h_3 := h_3 self + 1;
        h_10 := h_10 self + 1; mr := mr self + 0; mrr := mrr self |})
  ∧ snd (update 0 self) ≠ self.
Proof.
  split; [apply update_zero|].
  rewrite update_zero. simpl. intros Heq.
  apply (f_equal cnt) in Heq. simpl in Heq. lia.
Qed.

(** C7, as the code has it: [update(0)] raises ZeroDivisionError; for a
    negative rank [update] raises nothing and records the rank like any
    other, counting it in [h_1], [h_3] and [h_10]. *)
Theorem update_nonpositive (r : Z) (self : t) :
  r ≤ 0 →
  (r = 0 → fst (update r self) = Raise ZeroDivisionError)
  ∧ (r < 0 →
     update r self =
       (Ok tt,
        {| cnt := cnt self + 1; h_1 := h_1 self + 1; h_3 := h_3 self + 1;
           h_10 := h_10 self + 1; mr := mr self + r;
           mrr := (mrr self + 1 / float_of_int r)%float |})).
Proof.
  intros Hr. split.
  - intros ->. by rewrite update_zero.
  - intros Hneg. rewrite update_nonzero by lia.
    by rewrite !bool_decide_eq_true_2 by lia.
Qed.

Lemma update_nonpositive_witness :
  update (-2) __init__ = (Ok tt, mk 1 1 1 1 (-2) (0 + 1 / -2)%float).
Proof.
  apply (proj2 (update_nonpositive (-2) __init__ ltac:(lia))). lia.
Defined.

(** C7, as stated, fails at rank -1: the call returns normally. *)
Lemma update_minus_one_returns :
  update (-1) __init__ = (Ok tt, mk 1 1 1 1 (-1) (-1)%float).
Proof. reflexivity. Qed.

(** C9: with [cnt = 0], as in a fresh [Metric], [_normalize] raises
    ZeroDivisionError, and so do [__str__] and [__iter__], which call it. *)
Theorem normalize_empty (self : t) :
  cnt self = 0 →
  _normalize self = Raise ZeroDivisionError
  ∧ (∀ repr, __str__ repr self = Raise ZeroDivisionError)
  ∧ __iter__ self = Raise ZeroDivisionError.
Proof.
  intros Hc.
  assert (_normalize self = Raise ZeroDivisionError) as Hn.
  { unfold _normalize, int_truediv, float_truediv. rewrite Hc. done. }
  unfold __str__, __iter__. rewrite Hn. done.
Qed.

Lemma normalize_empty_witness :
  _normalize __init__ = Raise ZeroDivisionError
  ∧ (∀ repr, __str__ repr __init__ = Raise ZeroDivisionError)
  ∧ __iter__ __init__ = Raise ZeroDivisionError.
Proof. apply (normalize_empty __init__). reflexivity. Defined.

(** The state after a run of updates, none of which divides by zero: the
    counters grow by the number of ranks below each threshold, [mr] by the
    sum of the ranks, and [mrr] is the left-to-right float sum. *)
Lemma updates_nonzero (rs : list Z) (self : t) :
  Forall (λ r, r ≠ 0) rs →
  updates rs self =
    (Ok tt,
     mk (cnt self + Z.of_nat (length rs))
        (h_1 self + Z.of_nat (length (filter (λ r, r < 2) rs)))
        (h_3 self + Z.of_nat (length (filter (λ r, r < 4) rs)))
        (h_10 self + Z.of_nat (length (filter (λ r, r < 11) rs)))
        (mr self + foldr Z.add 0 rs)
        (foldl (λ acc r, (acc + 1 / float_of_int r)%float) (mrr self) rs)).
Proof.
  intros Hrs. revert self. induction Hrs as [|r rs Hr _ IH]; intros self.
  - simpl. unfold mret, M_ret. destruct self; simpl. by rewrite !Z.add_0_r.
  - unfold updates in *. cbn [for_each]. unfold mbind, M_bind at 1.
    rewrite update_nonzero by done. rewrite IH. cbn [cnt h_1 h_3 h_10 mr mrr].
    f_equal. rewrite !filter_cons. cbn [foldr foldl length].
    repeat case_bool_decide; repeat case_decide; try lia;
      cbn [length]; f_equal; lia.
Qed.

Lemma sum_Permutation (l l' : list Z) :
  l ≡ₚ l' → foldr Z.add 0 l = foldr Z.add 0 l'.
Proof. induction 1; simpl; lia. Qed.

Lemma below_Permutation (k : Z) (l l' : list Z) :
  l ≡ₚ l' →
  length (filter (λ r, r < k) l) = length (filter (λ r, r < k) l').
Proof. intros Hp. by rewrite Hp. Qed.

(** C5, as the code has it: a reordering of ranks [>= 1] changes none of
    [cnt], [h_1], [h_3], [h_10], [mr], and every order of the ranks 2, 5, 1
    ends in the state the specification gives, [mrr] included. *)
Theorem updates_reordered :
  (∀ (l l' : list Z) (self : t),
     l ≡ₚ l' → Forall (λ r, 1 ≤ r) l →
     ∃ s s', updates l self = (Ok tt, s) ∧ updates l' self = (Ok tt, s')
       ∧ cnt s = cnt s' ∧ h_1 s = h_1 s' ∧ h_3 s = h_3 s'
       ∧ h_10 s = h_10 s' ∧ mr s = mr s')
  ∧ (∀ l : list Z,
       [2; 5; 1] ≡ₚ l →
       updates l __init__ = (Ok tt, mk 3 1 2 3 8 1.7%float)).
Proof.
  split.
  - intros l l' self Hp Hl.
    assert (Forall (λ r, r ≠ 0) l) as Hnz.
    { eapply Forall_impl; [exact Hl|]. simpl. lia. }
    assert (Forall (λ r, r ≠ 0) l') as Hnz' by by rewrite <- Hp.
    eexists _, _. split; [by apply updates_nonzero|].
    split; [by apply updates_nonzero|]. cbn [cnt h_1 h_3 h_10 mr].
    rewrite (Permutation_length Hp), (sum_Permutation _ _ Hp),
      !(below_Permutation _ _ _ Hp). done.
  - intros l Hp. apply permutations_Permutation in Hp.
    vm_compute in Hp.
    repeat (apply elem_of_cons in Hp as [->|Hp]; [by vm_compute|]).
    by apply elem_of_nil in Hp.
Qed.

Lemma updates_reordered_witness :
  updates [1; 5; 2] __init__ = (Ok tt, mk 3 1 2 3 8 1.7%float).
Proof.
  apply (proj2 updates_reordered [1; 5; 2]).
  apply permutations_Permutation. vm_compute.
  repeat (first [apply list_elem_of_here | apply list_elem_of_further]).
Defined.

(** C5, as stated, fails: the ranks 2, 3, 6 added in this order and in the
    reverse order leave two different [mrr] sums (0.9999999999999999 and
    1.0), so the final state depends on the order. *)
Lemma updates_order_matters :
  ¬ (∀ l l' : list Z,
       l ≡ₚ l' → updates l __init__ = updates l' __init__).
Proof.
  intros Hall.
  assert ([2; 3; 6] ≡ₚ [6; 3; 2]) as Hp.
  { apply permutations_Permutation. vm_compute.
    repeat (first [apply list_elem_of_here | apply list_elem_of_further]). }
  specialize (Hall _ _ Hp).
  apply (f_equal (λ p, PrimFloat.Leibniz.eqb (mrr (snd p)) 1%float)) in Hall.
  vm_compute in Hall. discriminate.
Qed.

End MetricFacts.

(** ** resume *)

(** C10: when [os.path.exists(args.resume)] is false, [resume] raises
    FileNotFoundError and leaves [mdl], [opt], [amp] and the list of
    [torch.load] calls as they were. *)
Theorem resume_missing_path {state_dict : Type}
    (rt : runtime state_dict) (args : Args.t) (w : objects state_dict) :
  os_path_exists rt (Args.resume args) = false →
  resume rt args w = (Raise FileNotFoundError, w).
Proof. intros Hex. unfold resume. by rewrite Hex. Qed.

Lemma resume_missing_path_witness :
  resume
    {| os_path_exists := λ _, false;
       torch_load := λ _, Ok ∅;
       load_state_dict := λ (_ : nat) _, Raise TypeError;
       cuda_is_available := false |}
    (Args.mk TTransE false Both "bst.ckpt")
    {| mdl := 1; opt := 2; amp := 3; loads := [] |}
  = (Raise FileNotFoundError, {| mdl := 1; opt := 2; amp := 3; loads := [] |}).
Proof. apply resume_missing_path. reflexivity. Defined.

(** When the path exists [torch.load] is called with it, once, whatever
    happens afterwards. *)
Lemma resume_existing_path_loads {state_dict : Type}
    (rt : runtime state_dict) (args : Args.t) (w : objects state_dict) :
  os_path_exists rt (Args.resume args) = true →
  loads (snd (resume rt args w)) = Args.resume args :: loads w.
Proof.
  intros Hex. unfold resume. rewrite Hex. simpl.
  unfold mbind, M_bind, modify, lift, load_into, get. simpl.
  destruct (torch_load rt (Args.resume args)) as [ckpt|]; [|done].
  repeat (cbv [mbind M_bind modify lift get mret M_ret]; simpl;
          match goal with
    | |- context [dict_getitem ?d ?k] => destruct (dict_getitem d k)
    | |- context [load_state_dict ?r ?a ?b] => destruct (load_state_dict r a b)
    | |- context [cuda_is_available ?r] => destruct (cuda_is_available r)
    end); done.
Qed.

(** ** The temporal-token index *)

Section t_idx_facts.
Context {tok : Type} `{Countable tok}.
Context (tok_le : relation tok) `{!RelDecision tok_le}.
Context `{!PartialOrder tok_le, !Total tok_le}.

Lemma squash_cons2 (x y : tok) (l : list tok) :
  squash (x :: y :: l) =
    if decide (x = y) then squash (y :: l) else x :: squash (y :: l).
Proof. reflexivity. Qed.

Lemma elem_of_squash (l : list tok) (e : tok) : e ∈ squash l ↔ e ∈ l.
Proof.
  induction l as [|x l IH]; [done|].
  destruct l as [|y l]; [done|].
  rewrite squash_cons2. destruct (decide (x = y)) as [->|Hne].
  - rewrite IH, !elem_of_cons. tauto.
  - rewrite (elem_of_cons (squash _)), IH, !elem_of_cons. tauto.
Qed.

Lemma squash_sorted (l : list tok) :
  StronglySorted tok_le l → StronglySorted (strict tok_le) (squash l).
Proof.
  induction 1 as [|x l Hl IH Hx]; [constructor|].
  destruct l as [|y l']; [repeat constructor|].
  rewrite squash_cons2.
  destruct (decide (x = y)) as [->|Hne]; [done|].
  constructor; [done|].
  apply Forall_forall. intros z Hz. rewrite elem_of_squash in Hz.
  rewrite Forall_forall in Hx. split; [by apply Hx|].
  intros Hzx. apply Hne.
  apply (anti_symm tok_le); [apply Hx; left|].
  apply elem_of_cons in Hz as [->|Hz]; [done|].
  apply StronglySorted_inv in Hl as [_ Hy]. rewrite Forall_forall in Hy.
  trans z; [by apply Hy|done].
Qed.

Lemma strictly_sorted_NoDup (l : list tok) :
  StronglySorted (strict tok_le) l → NoDup l.
Proof.
  induction 1 as [|x l _ IH Hx]; constructor; [|done].
  intros Hin. rewrite Forall_forall in Hx.
  by destruct (irreflexivity (strict tok_le) x); apply Hx.
Qed.

Lemma elem_of_np_unique (l : list tok) (e : tok) :
  e ∈ np_unique tok_le l ↔ e ∈ l.
Proof.
  unfold np_unique. by rewrite elem_of_squash, merge_sort_Permutation.
Qed.

Lemma np_unique_sorted (l : list tok) :
  StronglySorted (strict tok_le) (np_unique tok_le l).
Proof. apply squash_sorted, StronglySorted_merge_sort; apply _. Qed.

Lemma np_unique_NoDup (l : list tok) : NoDup (np_unique tok_le l).
Proof. apply strictly_sorted_NoDup, np_unique_sorted. Qed.

(** [np.unique] depends on the set of elements only. *)
Lemma np_unique_ext (l l' : list tok) :
  (∀ e, e ∈ l ↔ e ∈ l') → np_unique tok_le l = np_unique tok_le l'.
Proof.
  intros Hll. apply (StronglySorted_unique_strong (strict tok_le)).
  - intros x1 x2 _ _ [H12 Hn] [H21 _]. done.
  - apply np_unique_sorted.
  - apply np_unique_sorted.
  - apply NoDup_Permutation; [apply np_unique_NoDup..|].
    intros e. by rewrite !elem_of_np_unique.
Qed.

Lemma dict_of_enumerate_snoc (l : list tok) (x : tok) :
  dict_of_enumerate (l ++ [x]) = <[x := length l]> (dict_of_enumerate l).
Proof.
  unfold dict_of_enumerate. rewrite imap_app, foldl_app. simpl.
  by rewrite Nat.add_0_r.
Qed.

(** The dictionary of a duplicate-free list inverts its indexing. *)
Lemma dict_of_enumerate_lookup (l : list tok) (e : tok) (i : nat) :
  NoDup l → dict_of_enumerate l !! e = Some i ↔ l !! i = Some e.
Proof.
  revert e i. induction l as [|x l IH] using rev_ind; intros e i Hnd.
  - unfold dict_of_enumerate. simpl. by rewrite lookup_empty.
  - apply NoDup_app in Hnd as (Hnd & Hx & _).
    rewrite dict_of_enumerate_snoc, lookup_snoc_Some.
    destruct (decide (x = e)) as [->|Hne].
    + rewrite lookup_insert_eq. split.
      * intros [= <-]. by right.
      * intros [[_ Hl]|[-> _]]; [|done].
        destruct (Hx e); [|left]. by eapply list_elem_of_lookup_2.
    + rewrite lookup_insert_ne by done. rewrite IH by done.
      split; [|by intros [[_ ?]|[_ ?]]].
      intros Hl. left. split; [by eapply lookup_lt_Some|done].
Qed.

Lemma dict_of_enumerate_size (l : list tok) :
  NoDup l → size (dict_of_enumerate l) = length l.
Proof.
  induction l as [|x l IH] using rev_ind; intros Hnd; [done|].
  apply NoDup_app in Hnd as (Hnd & Hx & _).
  rewrite dict_of_enumerate_snoc, map_size_insert_None, IH, length_app; simpl.
  - lia.
  - done.
  - destruct (dict_of_enumerate l !! x) as [i|] eqn:Hi; [|done].
    rewrite dict_of_enumerate_lookup in Hi by done.
    destruct (Hx x); [|left]. by eapply list_elem_of_lookup_2.
Qed.

(** In a strictly sorted list, positions and elements are ordered alike. *)
Lemma strictly_sorted_lookup (l : list tok) (i j : nat) (x y : tok) :
  StronglySorted (strict tok_le) l →
  l !! i = Some x → l !! j = Some y → strict tok_le x y ↔ i < j.
Proof.
  intros Hs Hi Hj.
  assert (∀ a b u v, l !! a = Some u → l !! b = Some v → a < b →
            strict tok_le u v) as Hmono.
  { clear -Hs. induction Hs as [|z l _ IH Hz]; intros a b u v Ha Hb Hab.
    - done.
    - destruct b as [|b]; [lia|]. destruct a as [|a].
      + simpl in *. injection Ha as <-. rewrite Forall_forall in Hz.
        apply Hz. by eapply list_elem_of_lookup_2.
      + simpl in *. eapply IH; [done..|lia]. }
  split.
  - intros Hxy. destruct (decide (i < j)) as [|Hge]; [done|].
    destruct (decide (i = j)) as [->|Hne].
    + rewrite Hi in Hj. injection Hj as ->.
      by destruct (irreflexivity (strict tok_le) y).
    + assert (strict tok_le y x) as Hyx by (eapply Hmono; [done..|lia]).
      destruct (irreflexivity (strict tok_le) x). by trans y.
  - by eapply Hmono.
Qed.

Lemma all_tokens_union (tr_ds vd_ds ts_ds : ndarray tok) :
  length (planes tr_ds) = length (planes vd_ds) →
  length (planes vd_ds) = length (planes ts_ds) →
  shape2 tr_ds = shape2 vd_ds → shape2 vd_ds = shape2 ts_ds →
  0 < length (planes ts_ds) →
  all_tokens tr_ds vd_ds ts_ds
  = Ok (tokens_of tr_ds ++ tokens_of vd_ds ++ tokens_of ts_ds).
Proof.
  intros H1 H2 H3 H4 H5. unfold all_tokens, np_concatenate_axis1.
  rewrite decide_True by done.
  destruct tr_ds as [[|p1 ?] ? ?], vd_ds as [[|p2 ?] ? ?],
    ts_ds as [[|p3 ?] ? ?]; simpl in *; try lia.
  unfold tokens_of, temporal_columns. simpl.
  by rewrite !fmap_app, !concat_app.
Qed.

(** The two ways the index fails: arrays that disagree on the number of
    planes or on the width of the rows cannot be concatenated, and an
    array without planes has no plane 0. *)
Lemma t_idx_raises (tr_ds vd_ds ts_ds : ndarray tok) :
  (¬ (length (planes tr_ds) = length (planes vd_ds)
      ∧ length (planes vd_ds) = length (planes ts_ds)
      ∧ shape2 tr_ds = shape2 vd_ds ∧ shape2 vd_ds = shape2 ts_ds) →
   t_idx tok_le tr_ds vd_ds ts_ds = Raise ValueError)
  ∧ (length (planes tr_ds) = length (planes vd_ds)
     ∧ length (planes vd_ds) = length (planes ts_ds)
     ∧ shape2 tr_ds = shape2 vd_ds ∧ shape2 vd_ds = shape2 ts_ds →
     planes ts_ds = [] →
     t_idx tok_le tr_ds vd_ds ts_ds = Raise IndexError).
Proof.
  unfold t_idx, all_tokens, np_concatenate_axis1. split.
  - intros Hne. by rewrite decide_False.
  - intros Heq Hnil. rewrite decide_True by done. rewrite Hnil.
    by rewrite !zip_with_nil_r.
Qed.

(** C3: for three arrays that agree on the number of planes (at least one)
    and on the width of their rows, [t_idx] is defined on exactly the
    temporal tokens of the three splits, maps them one-to-one onto
    [0, t_idx_ln), gives the smaller id to the smaller token, and is the
    same for any input with the same set of tokens, whatever their order
    and multiplicity. *)
Theorem t_idx_bijection (tr_ds vd_ds ts_ds : ndarray tok) :
  rectangular tr_ds → rectangular vd_ds → rectangular ts_ds →
  length (planes tr_ds) = length (planes vd_ds) →
  length (planes vd_ds) = length (planes ts_ds) →
  shape2 tr_ds = shape2 vd_ds → shape2 vd_ds = shape2 ts_ds →
  0 < length (planes ts_ds) →
  ∃ d : gmap tok nat,
    t_idx tok_le tr_ds vd_ds ts_ds = Ok d
    ∧ t_idx_ln tok_le tr_ds vd_ds ts_ds = Ok (size d)
    ∧ (∀ e, is_Some (d !! e) ↔
         e ∈ tokens_of tr_ds ∨ e ∈ tokens_of vd_ds ∨ e ∈ tokens_of ts_ds)
    ∧ (∀ e i, d !! e = Some i → i < size d)
    ∧ (∀ i, i < size d → ∃ e, d !! e = Some i)
    ∧ (∀ e e' i, d !! e = Some i → d !! e' = Some i → e = e')
    ∧ (∀ e e' i i', d !! e = Some i → d !! e' = Some i' →
         strict tok_le e e' ↔ i < i')
    ∧ (∀ tr' vd' ts' : ndarray tok,
         rectangular tr' → rectangular vd' → rectangular ts' →
         length (planes tr') = length (planes vd') →
         length (planes vd') = length (planes ts') →
         shape2 tr' = shape2 vd' → shape2 vd' = shape2 ts' →
         0 < length (planes ts') →
         (∀ e, e ∈ tokens_of tr' ∨ e ∈ tokens_of vd' ∨ e ∈ tokens_of ts' ↔
               e ∈ tokens_of tr_ds ∨ e ∈ tokens_of vd_ds
               ∨ e ∈ tokens_of ts_ds) →
         t_idx tok_le tr' vd' ts' = Ok d).
Proof.
  intros _ _ _ H1 H2 H3 H4 H5.
  set (l := tokens_of tr_ds ++ tokens_of vd_ds ++ tokens_of ts_ds).
  set (u := np_unique tok_le l).
  assert (NoDup u) as Hnd by apply np_unique_NoDup.
  assert (t_idx tok_le tr_ds vd_ds ts_ds = Ok (dict_of_enumerate u)) as Hd.
  { unfold t_idx. by rewrite all_tokens_union. }
  exists (dict_of_enumerate u). rewrite dict_of_enumerate_size by done.
  split; [done|]. split.
  { unfold t_idx_ln. rewrite Hd. simpl.
    by rewrite dict_of_enumerate_size. }
  split.
  { intros e. rewrite <- !elem_of_app. fold l.
    rewrite <- (elem_of_np_unique l e). fold u.
    rewrite list_elem_of_lookup. unfold is_Some.
    by setoid_rewrite dict_of_enumerate_lookup. }
  split.
  { intros e i Hi. rewrite dict_of_enumerate_lookup in Hi by done.
    by eapply lookup_lt_Some. }
  split.
  { intros i Hi. destruct (lookup_lt_is_Some_2 u i Hi) as [e He].
    exists e. by rewrite dict_of_enumerate_lookup. }
  split.
  { intros e e' i Hi Hi'. rewrite dict_of_enumerate_lookup in Hi, Hi' by done.
    congruence. }
  split.
  { intros e e' i i' Hi Hi'.
    rewrite dict_of_enumerate_lookup in Hi, Hi' by done.
    eapply strictly_sorted_lookup; [apply np_unique_sorted|done..]. }
  intros tr' vd' ts' _ _ _ H1' H2' H3' H4' H5' Hsame.
  unfold t_idx. rewrite all_tokens_union by done. simpl. do 2 f_equal.
  apply np_unique_ext. intros e. unfold l. rewrite !elem_of_app.
  apply Hsame.
Qed.

End t_idx_facts.

Lemma t_idx_bijection_witness :
  ∃ d : gmap nat nat,
    t_idx le tr_ex vd_ex ts_ex = Ok d
    ∧ t_idx_ln le tr_ex vd_ex ts_ex = Ok (size d).
Proof.
  destruct (t_idx_bijection le tr_ex vd_ex ts_ex)
    as (d & Hd & Hln & _);
    [repeat constructor..|reflexivity|reflexivity|reflexivity|reflexivity
    |simpl; lia|].
  by exists d.
Defined.

(** The index of the example: tokens 1, 3, 12, 13, 14, 15, 16 in this
    order, whatever the order of the rows. *)
Example t_idx_example :
  (λ d : gmap nat nat, (d !! 1, d !! 3, d !! 12, d !! 16, d !! 2, size d))
    <$> t_idx le tr_ex vd_ex ts_ex
  = Ok (Some 0, Some 1, Some 2, Some 6, None, 7).
Proof. vm_compute. reflexivity. Qed.

(** With a validation split of another width there is no index. *)
Example t_idx_width_mismatch :
  t_idx_ln le tr_ex vd_short_ex ts_ex = Raise ValueError.
Proof. reflexivity. Qed.

(** ** Ranking *)

Global Instance desc_trans (row : list Qc) : Transitive (desc row).
Proof. intros i j k Hij Hjk. unfold desc in *. by trans (score row j). Qed.

Global Instance desc_total (row : list Qc) : Total (desc row).
Proof.
  intros i j. unfold desc.
  destruct (total Qcle (score row i) (score row j)); auto.
Qed.

Lemma argsort_desc_Permutation (row : list Qc) :
  argsort_desc row ≡ₚ seq 0 (length row).
Proof. apply merge_sort_Permutation. Qed.

Lemma argsort_desc_sorted (row : list Qc) :
  StronglySorted (desc row) (argsort_desc row).
Proof. apply StronglySorted_merge_sort; apply _. Qed.

Lemma argsort_desc_NoDup (row : list Qc) : NoDup (argsort_desc row).
Proof. rewrite argsort_desc_Permutation. apply NoDup_seq. Qed.

Lemma elem_of_argsort_desc (row : list Qc) (x : nat) :
  x ∈ argsort_desc row ↔ x < length row.
Proof. rewrite argsort_desc_Permutation, elem_of_seq. lia. Qed.

(** The first element a filter keeps of a run of consecutive numbers. *)
Lemma filter_seq_head (P : nat → Prop) `{∀ k, Decision (P k)} (s n : nat) :
  match filter P (seq s n) with
  | k :: _ => s ≤ k < s + n ∧ P k ∧ ∀ j, s ≤ j < k → ¬ P j
  | [] => ∀ j, s ≤ j < s + n → ¬ P j
  end.
Proof.
  revert s. induction n as [|n IH]; intros s; simpl.
  - intros j Hj. lia.
  - rewrite filter_cons. destruct (decide (P s)) as [Hs|Hs].
    + split; [lia|]. split; [done|]. intros j Hj. lia.
    + specialize (IH (S s)). destruct (filter P (seq (S s) n)) as [|k l].
      * intros j Hj. destruct (decide (j = s)) as [->|]; [done|].
        apply IH. lia.
      * destruct IH as (Hk & HP & Hmin). split; [lia|]. split; [done|].
        intros j Hj. destruct (decide (j = s)) as [->|]; [done|].
        apply Hmin. lia.
Qed.

(** [np.argwhere(l == x)[0, 0]] is the least position of [x] in [l]. *)
Lemma argwhere_0_0_Ok (l : list nat) (x k : nat) :
  argwhere_0_0 l x = Ok k ↔ l !! k = Some x ∧ ∀ j, j < k → l !! j ≠ Some x.
Proof.
  unfold argwhere_0_0, argwhere.
  pose proof (filter_seq_head (λ k, l !! k = Some x) 0 (length l)) as Hf.
  destruct (filter _ (seq 0 (length l))) as [|k' rest].
  - split; [done|]. intros [Hk _]. destruct (Hf k); [|done].
    apply lookup_lt_Some in Hk. lia.
  - destruct Hf as (_ & Hk' & Hmin). split.
    + intros [= <-]. split; [done|]. intros j Hj. apply Hmin. lia.
    + intros [Hk Hmink]. f_equal.
      destruct (Nat.lt_trichotomy k k') as [Hlt|[->|Hlt]]; [|done|].
      * destruct (Hmin k); [lia|done].
      * destruct (Hmink k'); done.
Qed.

Lemma argwhere_0_0_elem_of (l : list nat) (x : nat) :
  x ∈ l → ∃ k, argwhere_0_0 l x = Ok k.
Proof.
  intros Hx. unfold argwhere_0_0, argwhere.
  pose proof (filter_seq_head (λ k, l !! k = Some x) 0 (length l)) as Hf.
  destruct (filter _ (seq 0 (length l))) as [|k' rest]; [|by eexists].
  apply list_elem_of_lookup in Hx as [i Hi]. destruct (Hf i); [|done].
  apply lookup_lt_Some in Hi. lia.
Qed.

(** In a list of candidates sorted by descending score, with no two scores
    equal, a candidate's position is the number of candidates that score
    strictly higher. *)
Lemma sorted_position_count (row : list Qc) (p : list nat) (k x : nat) :
  StronglySorted (desc row) p → NoDup p →
  (∀ i j, i ∈ p → j ∈ p → i ≠ j → score row i ≠ score row j) →
  p !! k = Some x →
  length (filter (λ j, (score row x < score row j)%Qc) p) = k.
Proof.
  intros Hs. revert k. induction Hs as [|y p Hs IH Hy]; intros k Hnd Hdist Hk.
  - done.
  - apply NoDup_cons in Hnd as [Hyp Hnd]. rewrite Forall_forall in Hy.
    unfold desc in Hy. rewrite filter_cons. destruct k as [|k]; simpl in Hk.
    + injection Hk as ->.
      rewrite decide_False by (apply Qcle_ngt; reflexivity).
      rewrite (elem_of_nil_inv (filter _ p)); [done|].
      intros j [Hj Hjp]%list_elem_of_filter.
      by apply Qclt_nge in Hj; apply Hj, Hy.
    + assert (x ∈ p) as Hxp by by eapply list_elem_of_lookup_2.
      assert (score row x < score row y)%Qc as Hlt.
      { apply Qclt_nge. intros Hle. apply (Hdist x y).
        - by right.
        - by left.
        - by intros ->.
        - by apply (anti_symm Qcle); [apply Hy|]. }
      rewrite decide_True by done. simpl. f_equal. apply IH; [done| |done].
      intros i j Hi Hj. apply Hdist; by right.
Qed.

(** The rank [evaluate] computes from a row of scores: one more than the
    position of the candidate in the descending sort, which is the number
    of strictly higher scores when no two scores are equal. *)
Lemma rank_of_position (row : list Qc) (x : nat) :
  x < length row →
  ∃ k, rank_of row x = Ok (Z.of_nat k + 1)%Z
     ∧ argsort_desc row !! k = Some x
     ∧ (∀ j, j < k → argsort_desc row !! j ≠ Some x)
     ∧ (pairwise_distinct row → k = count_above row x).
Proof.
  intros Hx. apply elem_of_argsort_desc in Hx.
  destruct (argwhere_0_0_elem_of _ _ Hx) as [k Hk]. exists k.
  unfold rank_of. rewrite Hk. split; [done|].
  apply argwhere_0_0_Ok in Hk as [Hk Hmin]. split; [done|]. split; [done|].
  intros Hdist. unfold count_above.
  rewrite <- (argsort_desc_Permutation row).
  symmetry. apply sorted_position_count.
  - apply argsort_desc_sorted.
  - apply argsort_desc_NoDup.
  - intros i j Hi Hj. apply Hdist; by apply elem_of_argsort_desc.
  - done.
Qed.

Lemma length_argsort_desc (row : list Qc) :
  length (argsort_desc row) = length row.
Proof. by rewrite argsort_desc_Permutation, length_seq. Qed.

(** ** evaluate *)

Section evaluate_facts.
Context {vec : Type} `{Tensor vec}.
Implicit Types (args : Args.t) (mdl : module vec) (b : list triple).

Lemma for_each_app {St A} (l k : list A) (body : A → M St unit) (st : St) :
  for_each (l ++ k) body st = (for_each l body ;; for_each k body) st.
Proof.
  revert st. induction l as [|x l IH]; intros st; simpl.
  - done.
  - unfold mbind, M_bind in *. destruct (body x st) as [[[]|e] st']; [|done].
    apply IH.
Qed.

Lemma updates_app (rs rs' : list Z) (self : Metric.t) :
  Metric.updates (rs ++ rs') self
  = (Metric.updates rs ;; Metric.updates rs') self.
Proof. apply for_each_app. Qed.

(** The embedding lookup succeeds on ids of the table. *)
Lemma e_embed_Ok mdl (ids : list nat) :
  Forall (λ i, i < length (e_embed_weight mdl)) ids →
  ∃ vs, e_embed mdl ids = Ok vs
      ∧ Forall2 (λ i v, e_embed_weight mdl !! i = Some v) ids vs.
Proof.
  induction 1 as [|i ids Hi _ (vs & Hvs & Hall)].
  - by exists [].
  - destruct (lookup_lt_is_Some_2 _ _ Hi) as [v Hv]. exists (v :: vs).
    unfold e_embed in *. simpl. rewrite Hv, Hvs. simpl. auto.
Qed.

(** The relation-time embeddings of a batch, row by row. *)
Lemma rt_embed_rows args mdl b :
  (if bool_decide (Args.model args = TTransE)
   then zip_with vadd (r_embed mdl <$> (col2 <$> b))
                      (t_embed mdl <$> (col3 <$> b))
   else zip_with (rt_embed mdl) (col2 <$> b) (col3 <$> b))
  = rt_of args mdl <$> b.
Proof.
  unfold rt_of. destruct (bool_decide (Args.model args = TTransE));
    (induction b as [|x b IH]; [done|]); simpl in *; by f_equal.
Qed.

(** Two computations that start alike and continue alike are equal. *)
Lemma bind_ext {St A B} (m : M St A) (k k' : A → M St B) (st : St) :
  (∀ a st', k a st' = k' a st') → (m ≫= k) st = (m ≫= k') st.
Proof.
  intros Hk. unfold mbind, M_bind. destruct (m st) as [[a|e] st']; auto.
Qed.

(** The loop that records ranks is the sequence of its updates. *)
Lemma record_ranks_from (n : nat) (pre rows : list (list nat))
    (xs : list nat) (ranks : list Z) (self : Metric.t) :
  length pre = n →
  Forall3 (λ row x r, ∃ k, argwhere_0_0 row x = Ok k
                           ∧ r = (Z.of_nat k + 1)%Z) rows xs ranks →
  for_each (imap (λ i x, (n + i, x)) xs) (λ '(i, x),
    row ← lift (getitem (pre ++ rows) i);
    k ← lift (argwhere_0_0 row x);
    Metric.update (Z.of_nat k + 1)) self
  = Metric.updates ranks self.
Proof.
  intros Hn Hall. revert n pre Hn self.
  induction Hall as [|row x r rows xs ranks (k & Hk & ->) _ IH];
    intros n pre Hn self; [done|].
  rewrite imap_cons. unfold Metric.updates. cbn [for_each].
  assert (getitem (pre ++ row :: rows) (n + 0) = Ok row) as ->.
  { unfold getitem. by rewrite Nat.add_0_r, <- Hn, list_lookup_middle. }
  change (lift (Ok row) ≫= ?f) with (f row). cbv beta. rewrite Hk.
  change (lift (Ok k) ≫= ?f) with (f k). cbv beta.
  apply bind_ext. intros [] self'.
  rewrite (imap_ext _ (λ i x, (S n + i, x))).
  - rewrite (cons_middle row pre rows), app_assoc.
    apply (IH (S n) (pre ++ [row])).
    rewrite length_app. simpl. lia.
  - intros i y _. simpl. f_equal. lia.
Qed.

Lemma record_ranks_updates (rows : list (list nat)) (xs : list nat)
    (ranks : list Z) (self : Metric.t) :
  Forall3 (λ row x r, ∃ k, argwhere_0_0 row x = Ok k
                           ∧ r = (Z.of_nat k + 1)%Z) rows xs ranks →
  record_ranks rows xs self = Metric.updates ranks self.
Proof. intros Hall. by apply (record_ranks_from 0 []). Qed.


(** Ranking every row of a batch against the whole table. *)
Lemma ranked_rows mdl (emb target : triple → nat)
    (sc : vec → triple → list Qc) (f : triple → result Z)
    (b : list triple) (vs : list vec) :
  (∀ v x, length (sc v x) = length (e_embed_weight mdl)) →
  (∀ v x, e_embed_weight mdl !! emb x = Some v →
          f x = rank_of (sc v x) (target x)) →
  Forall2 (λ x v, e_embed_weight mdl !! emb x = Some v) b vs →
  Forall (λ x, target x < length (e_embed_weight mdl)) b →
  ∃ rs, mapM f b = Ok rs
      ∧ Forall3 (λ row y r, ∃ k, argwhere_0_0 row y = Ok k
                                 ∧ r = (Z.of_nat k + 1)%Z)
          (zip_with (λ v x, argsort_desc (sc v x)) vs b) (target <$> b) rs
      ∧ Forall2 (λ x r, ∃ v, e_embed_weight mdl !! emb x = Some v
                             ∧ recorded (sc v x) (target x) r) b rs.
Proof.
  intros Hlen Hf Hvs. induction Hvs as [|x v b vs Hv _ IH]; intros Ht.
  - exists []. repeat split; constructor.
  - apply Forall_cons in Ht as [Hx Ht].
    destruct (IH Ht) as (rs & Hrs & H3 & H2).
    destruct (rank_of_position (sc v x) (target x)) as (k & Hk & Hpos & Hmin & Hcnt);
      [by rewrite Hlen|].
    exists ((Z.of_nat k + 1)%Z :: rs). split; [|split].
    + simpl. rewrite (Hf v x Hv), Hk. simpl. by rewrite Hrs.
    + simpl. constructor; [|done]. exists k. split; [|done].
      unfold rank_of in Hk.
      destruct (argwhere_0_0 (argsort_desc (sc v x)) (target x)) as [k'|];
        simpl in Hk; [|done].
      injection Hk as Hk. f_equal. lia.
    + constructor; [|done]. exists v. split; [done|]. by exists k.
Qed.

Lemma length_tail_scores args mdl (v : vec) (x : triple) :
  length (tail_scores args mdl v x) = length (e_embed_weight mdl).
Proof. unfold tail_scores. case_bool_decide; by rewrite length_fmap. Qed.

Lemma length_head_scores args mdl (v : vec) (x : triple) :
  length (head_scores args mdl v x) = length (e_embed_weight mdl).
Proof. unfold head_scores. case_bool_decide; by rewrite length_fmap. Qed.

(** The sorted rows of the head block, row by row. *)
Lemma head_rows args mdl b (vs : list vec) :
  (if bool_decide (Args.model args = TADistMult) then
     (λ x, argsort_desc (dot x <$> e_embed_weight mdl))
       <$> zip_with vmul (rt_of args mdl <$> b) vs
   else
     (λ x, argsort_desc ((λ w, cdist (_p args) w x) <$> e_embed_weight mdl))
       <$> zip_with vsub vs (rt_of args mdl <$> b))
  = zip_with (λ v x, argsort_desc (head_scores args mdl v x)) vs b.
Proof.
  unfold head_scores. revert vs.
  destruct (bool_decide (Args.model args = TADistMult));
    (induction b as [|x b IH]; intros [|v vs]; [done..|]);
    simpl; by rewrite <- IH.
Qed.

(** The sorted rows of the tail block, row by row. *)
Lemma tail_rows args mdl b (vs : list vec) :
  (if bool_decide (Args.model args = TADistMult) then
     (λ x, argsort_desc (dot x <$> e_embed_weight mdl))
       <$> zip_with vmul vs (rt_of args mdl <$> b)
   else
     (λ x, argsort_desc (cdist (_p args) x <$> e_embed_weight mdl))
       <$> zip_with vadd vs (rt_of args mdl <$> b))
  = zip_with (λ v x, argsort_desc (tail_scores args mdl v x)) vs b.
Proof.
  unfold tail_scores. revert vs.
  destruct (bool_decide (Args.model args = TADistMult));
    (induction b as [|x b IH]; intros [|v vs]; [done..|]);
    simpl; by rewrite <- IH.
Qed.


Lemma bind_congr {St A B} (m m' : M St A) (k k' : A → M St B) (st : St) :
  m st = m' st → (∀ a st', k a st' = k' a st') → (m ≫= k) st = (m' ≫= k') st.
Proof.
  intros Hm Hk. unfold mbind, M_bind. rewrite Hm.
  destruct (m' st) as [[a|e] st']; auto.
Qed.

Lemma bind_ret_unit {St} (m : M St unit) (st : St) : (m ;; mret tt) st = m st.
Proof. unfold mbind, M_bind. by destruct (m st) as [[[]|e] st']. Qed.

(** The head block of [evaluate]. *)
Lemma head_block args mdl b :
  in_vocabulary mdl b →
  ∃ hs, mapM (head_rank args mdl) b = Ok hs
      ∧ Forall2 (λ x r, ∃ o_embed,
                   e_embed_weight mdl !! col1 x = Some o_embed
                   ∧ recorded (head_scores args mdl o_embed x) (col0 x) r) b hs
      ∧ ∀ self,
          (o_embed ← lift (e_embed mdl (col1 <$> b));
           record_ranks
             (if bool_decide (Args.model args = TADistMult) then
                (λ x, argsort_desc (dot x <$> e_embed_weight mdl))
                  <$> zip_with vmul (rt_of args mdl <$> b) o_embed
              else
                (λ x, argsort_desc
                        ((λ w, cdist (_p args) w x) <$> e_embed_weight mdl))
                  <$> zip_with vsub o_embed (rt_of args mdl <$> b))
             (col0 <$> b)) self
          = Metric.updates hs self.
Proof.
  intros Hb.
  destruct (e_embed_Ok mdl (col1 <$> b)) as (vs & Hvs & Hall).
  { apply Forall_fmap. eapply Forall_impl; [exact Hb|]. by intros x [_ ?]. }
  apply Forall2_fmap_l in Hall.
  destruct (ranked_rows mdl col1 col0 (head_scores args mdl)
              (head_rank args mdl) b vs) as (hs & Hhs & H3 & H2).
  - apply length_head_scores.
  - intros v x Hv. unfold head_rank, head_row, getitem. by rewrite Hv.
  - done.
  - eapply Forall_impl; [exact Hb|]. by intros x [? _].
  - exists hs. split; [done|]. split; [done|]. intros self.
    rewrite Hvs. change (lift (Ok vs) ≫= ?f) with (f vs). cbv beta.
    rewrite head_rows. by apply record_ranks_updates.
Qed.

(** The tail block of [evaluate]. *)
Lemma tail_block args mdl b :
  in_vocabulary mdl b →
  ∃ ts, mapM (tail_rank args mdl) b = Ok ts
      ∧ Forall2 (λ x r, ∃ s_embed,
                   e_embed_weight mdl !! col0 x = Some s_embed
                   ∧ recorded (tail_scores args mdl s_embed x) (col1 x) r) b ts
      ∧ ∀ self,
          (s_embed ← lift (e_embed mdl (col0 <$> b));
           record_ranks
             (if bool_decide (Args.model args = TADistMult) then
                (λ x, argsort_desc (dot x <$> e_embed_weight mdl))
                  <$> zip_with vmul s_embed (rt_of args mdl <$> b)
              else
                (λ x, argsort_desc (cdist (_p args) x <$> e_embed_weight mdl))
                  <$> zip_with vadd s_embed (rt_of args mdl <$> b))
             (col1 <$> b)) self
          = Metric.updates ts self.
Proof.
  intros Hb.
  destruct (e_embed_Ok mdl (col0 <$> b)) as (vs & Hvs & Hall).
  { apply Forall_fmap. eapply Forall_impl; [exact Hb|]. by intros x [? _]. }
  apply Forall2_fmap_l in Hall.
  destruct (ranked_rows mdl col0 col1 (tail_scores args mdl)
              (tail_rank args mdl) b vs) as (ts & Hts & H3 & H2).
  - apply length_tail_scores.
  - intros v x Hv. unfold tail_rank, tail_row, getitem. by rewrite Hv.
  - done.
  - eapply Forall_impl; [exact Hb|]. by intros x [_ ?].
  - exists ts. split; [done|]. split; [done|]. intros self.
    rewrite Hvs. change (lift (Ok vs) ≫= ?f) with (f vs). cbv beta.
    rewrite tail_rows. by apply record_ranks_updates.
Qed.

(** [evaluate] is the head block, unless the mode is [Tail], followed by
    the tail block, unless the mode is [Head]. *)
Lemma evaluate_blocks args mdl b (hs ts : list Z) :
  (∀ self,
     (o_embed ← lift (e_embed mdl (col1 <$> b));
      record_ranks
        (if bool_decide (Args.model args = TADistMult) then
           (λ x, argsort_desc (dot x <$> e_embed_weight mdl))
             <$> zip_with vmul (rt_of args mdl <$> b) o_embed
         else
           (λ x, argsort_desc
                   ((λ w, cdist (_p args) w x) <$> e_embed_weight mdl))
             <$> zip_with vsub o_embed (rt_of args mdl <$> b))
        (col0 <$> b)) self
     = Metric.updates hs self) →
  (∀ self,
     (s_embed ← lift (e_embed mdl (col0 <$> b));
      record_ranks
        (if bool_decide (Args.model args = TADistMult) then
           (λ x, argsort_desc (dot x <$> e_embed_weight mdl))
             <$> zip_with vmul s_embed (rt_of args mdl <$> b)
         else
           (λ x, argsort_desc (cdist (_p args) x <$> e_embed_weight mdl))
             <$> zip_with vadd s_embed (rt_of args mdl <$> b))
        (col1 <$> b)) self
     = Metric.updates ts self) →
  ∀ self,
    evaluate args b mdl self
    = Metric.updates
        match Args.mode args with
        | Both => hs ++ ts
        | Head => hs
        | Tail => ts
        end self.
Proof.
  intros Hh Ht self. unfold evaluate. cbv zeta. rewrite rt_embed_rows.
  destruct (Args.mode args); simpl.
  - rewrite bind_ret_unit. apply Hh.
  - apply Ht.
  - rewrite updates_app. apply bind_congr; [apply Hh|]. intros _ st. apply Ht.
Qed.


Lemma recorded_positive (scores : list Qc) (y : nat) (r : Z) :
  recorded scores y r → (1 ≤ r)%Z.
Proof. intros (k & -> & _). lia. Qed.

Lemma mapM_length {A B} (f : A → result B) (l : list A) (k : list B) :
  mapM f l = Ok k → length k = length l.
Proof.
  revert k. induction l as [|x l IH]; intros k; simpl.
  - by intros [= <-].
  - destruct (f x) as [y|]; simpl; [|done].
    destruct (mapM f l) as [k'|]; simpl; [|done].
    intros [= <-]. simpl. f_equal. by apply IH.
Qed.

(** C6: on a batch whose subjects and objects are entities of the table,
    [evaluate] is exactly the head-rank updates (unless the mode is tail)
    followed by the tail-rank updates (unless the mode is head), one update
    per row and block; it returns normally and [cnt] grows by two per row in
    mode both and by one per row in modes head and tail. *)
Theorem evaluate_updates args mdl b :
  in_vocabulary mdl b →
  ∃ hs ts : list Z,
    mapM (head_rank args mdl) b = Ok hs
    ∧ mapM (tail_rank args mdl) b = Ok ts
    ∧ length hs = length b ∧ length ts = length b
    ∧ ∀ self,
        evaluate args b mdl self
        = Metric.updates
            match Args.mode args with
            | Both => hs ++ ts
            | Head => hs
            | Tail => ts
            end self
        ∧ fst (evaluate args b mdl self) = Ok tt
        ∧ Metric.cnt (snd (evaluate args b mdl self))
          = (Metric.cnt self
             + match Args.mode args with Both => 2 | _ => 1 end
               * Z.of_nat (length b))%Z.
Proof.
  intros Hb.
  destruct (head_block args mdl b Hb) as (hs & Hhs & Hrec_h & Hh).
  destruct (tail_block args mdl b Hb) as (ts & Hts & Hrec_t & Ht).
  pose proof (mapM_length _ _ _ Hhs) as Hlh.
  pose proof (mapM_length _ _ _ Hts) as Hlt.
  exists hs, ts. do 4 (split; [done|]). intros self.
  pose proof (evaluate_blocks args mdl b hs ts Hh Ht self) as Hev.
  split; [done|]. rewrite Hev.
  assert (Forall (λ r : Z, r ≠ 0%Z) hs) as Hnz_h.
  { apply Forall_forall. intros r Hr.
    apply list_elem_of_lookup in Hr as [i Hi].
    destruct (Forall2_lookup_r _ _ _ _ _ Hrec_h Hi) as (x & _ & v & _ & Hrec).
    apply recorded_positive in Hrec. lia. }
  assert (Forall (λ r : Z, r ≠ 0%Z) ts) as Hnz_t.
  { apply Forall_forall. intros r Hr.
    apply list_elem_of_lookup in Hr as [i Hi].
    destruct (Forall2_lookup_r _ _ _ _ _ Hrec_t Hi) as (x & _ & v & _ & Hrec).
    apply recorded_positive in Hrec. lia. }
  rewrite MetricFacts.updates_nonzero.
  - simpl. split; [done|].
    destruct (Args.mode args); rewrite ?length_app; lia.
  - destruct (Args.mode args); [done..|]. by apply Forall_app.
Qed.

(** C2: for TADistMult the rank recorded by tail-ranking for each row is
    one more than the position of its true object in the descending sort of
    the dot-product scores of all candidates, and that position is the
    number of candidates with a strictly higher score when the scores are
    pairwise distinct; a row whose scores are 0.9, 0.1, 0.5, 0.3 records
    rank 1 for the true object 0 and rank 2 for the true object 2. *)
Theorem tail_ranking_TADistMult args mdl :
  Args.model args = TADistMult →
  (∀ b, in_vocabulary mdl b →
     ∃ hs ts : list Z,
       (∀ self,
          evaluate args b mdl self
          = Metric.updates
              match Args.mode args with
              | Both => hs ++ ts
              | Head => hs
              | Tail => ts
              end self)
       ∧ Forall2 (λ x r, ∃ (s_embed : vec) (scores : list Qc) (k : nat),
                    e_embed_weight mdl !! col0 x = Some s_embed
                    ∧ scores = dot (vmul s_embed (rt_of args mdl x))
                                 <$> e_embed_weight mdl
                    ∧ r = (Z.of_nat k + 1)%Z
                    ∧ argsort_desc scores !! k = Some (col1 x)
                    ∧ (pairwise_distinct scores →
                       k = count_above scores (col1 x))) b ts)
  ∧ (∀ x self,
       Args.mode args = Tail →
       tail_row args mdl x = Ok [qc 9 10; qc 1 10; qc 5 10; qc 3 10] →
       (col1 x = 0 → evaluate args [x] mdl self = Metric.update 1 self)
       ∧ (col1 x = 2 → evaluate args [x] mdl self = Metric.update 2 self)).
Proof.
  intros Hmodel. split.
  - intros b Hb.
    destruct (tail_block args mdl b Hb) as (ts & Hts & Hrec & Ht).
    destruct (head_block args mdl b Hb) as (hs & _ & _ & Hh).
    exists hs, ts. split; [by apply evaluate_blocks|].
    eapply Forall2_impl; [exact Hrec|]. simpl.
    intros x r (v & Hv & k & -> & Hk & _ & Hcnt).
    exists v, (tail_scores args mdl v x), k. split; [done|]. split; [|done].
    unfold tail_scores. by rewrite bool_decide_eq_true_2.
  - intros x self Hmode Hrow.
    assert (∀ y, col1 x = y → y < 4 → ∀ r,
              rank_of [qc 9 10; qc 1 10; qc 5 10; qc 3 10] y = Ok r →
              evaluate args [x] mdl self = Metric.update r self) as Hone.
    { intros y Hy Hlt r Hr.
      assert (in_vocabulary mdl [x]) as Hb.
      { unfold tail_row, getitem in Hrow.
        destruct (e_embed_weight mdl !! col0 x) as [v|] eqn:Hv; [|done].
        injection Hrow as Hrow. apply (f_equal length) in Hrow.
        rewrite length_tail_scores in Hrow. simpl in Hrow.
        apply lookup_lt_Some in Hv. repeat constructor; lia. }
      destruct (tail_block args mdl [x] Hb) as (ts & Hts & _ & Ht).
      destruct (head_block args mdl [x] Hb) as (hs & _ & _ & Hh).
      rewrite (evaluate_blocks args mdl [x] hs ts Hh Ht), Hmode.
      simpl in Hts. unfold tail_rank in Hts. rewrite Hrow in Hts.
      simpl in Hts. rewrite Hy, Hr in Hts. injection Hts as <-.
      apply bind_ret_unit. }
    split; intros Hy; by apply (Hone _ Hy); [lia|vm_compute].
Qed.

(** For the distance-based models the same sort is applied to distances:
    the rank recorded is one more than the position of the true entity in
    the DESCENDING sort of the distances, that is, one more than the number
    of candidates strictly farther away when the distances are pairwise
    distinct. *)
Lemma distance_ranking args mdl b :
  Args.model args ≠ TADistMult → in_vocabulary mdl b →
  ∃ hs ts : list Z,
    (∀ self,
       evaluate args b mdl self
       = Metric.updates
           match Args.mode args with
           | Both => hs ++ ts
           | Head => hs
           | Tail => ts
           end self)
    ∧ Forall2 (λ x r, ∃ (o_embed : vec) (dists : list Qc) (k : nat),
                 e_embed_weight mdl !! col1 x = Some o_embed
                 ∧ dists = (λ w, cdist (_p args) w
                                   (vsub o_embed (rt_of args mdl x)))
                             <$> e_embed_weight mdl
                 ∧ r = (Z.of_nat k + 1)%Z
                 ∧ argsort_desc dists !! k = Some (col0 x)
                 ∧ (pairwise_distinct dists →
                    k = count_above dists (col0 x))) b hs
    ∧ Forall2 (λ x r, ∃ (s_embed : vec) (dists : list Qc) (k : nat),
                 e_embed_weight mdl !! col0 x = Some s_embed
                 ∧ dists = cdist (_p args) (vadd s_embed (rt_of args mdl x))
                             <$> e_embed_weight mdl
                 ∧ r = (Z.of_nat k + 1)%Z
                 ∧ argsort_desc dists !! k = Some (col1 x)
                 ∧ (pairwise_distinct dists →
                    k = count_above dists (col1 x))) b ts.
Proof.
  intros Hmodel Hb.
  destruct (head_block args mdl b Hb) as (hs & _ & Hrec_h & Hh).
  destruct (tail_block args mdl b Hb) as (ts & _ & Hrec_t & Ht).
  exists hs, ts. split; [by apply evaluate_blocks|]. split.
  - eapply Forall2_impl; [exact Hrec_h|]. simpl.
    intros x r (v & Hv & k & -> & Hk & _ & Hcnt).
    exists v, (head_scores args mdl v x), k. split; [done|]. split; [|done].
    unfold head_scores. by rewrite bool_decide_eq_false_2.
  - eapply Forall2_impl; [exact Hrec_t|]. simpl.
    intros x r (v & Hv & k & -> & Hk & _ & Hcnt).
    exists v, (tail_scores args mdl v x), k. split; [done|]. split; [|done].
    unfold tail_scores. by rewrite bool_decide_eq_false_2.
Qed.

End evaluate_facts.

(** Two rows of rationals are equal when their entries reduce to the same
    fractions. *)
Ltac qc_row := simpl; repeat f_equal; by apply Qc_is_canon.

Lemma evaluate_updates_witness :
  Metric.cnt
    (snd (evaluate (Args.mk TADistMult false Both "bst.ckpt")
            [Triple 0 0 0 []; Triple 0 2 0 []] toy_mdl Metric.__init__))
  = 4%Z.
Proof.
  destruct (evaluate_updates (Args.mk TADistMult false Both "bst.ckpt")
              toy_mdl [Triple 0 0 0 []; Triple 0 2 0 []])
    as (hs & ts & _ & _ & _ & _ & Hall).
  - repeat constructor; simpl; lia.
  - destruct (Hall Metric.__init__) as (_ & _ & Hcnt). exact Hcnt.
Defined.

Lemma tail_ranking_TADistMult_witness :
  evaluate (Args.mk TADistMult false Tail "bst.ckpt")
    [Triple 0 0 0 []] toy_mdl Metric.__init__
  = Metric.update 1 Metric.__init__
  ∧ evaluate (Args.mk TADistMult false Tail "bst.ckpt")
      [Triple 0 2 0 []] toy_mdl Metric.__init__
    = Metric.update 2 Metric.__init__.
Proof.
  pose proof (tail_ranking_TADistMult
                (Args.mk TADistMult false Tail "bst.ckpt") toy_mdl
                eq_refl) as [_ Hrow].
  split.
  - apply (Hrow (Triple 0 0 0 []) Metric.__init__ eq_refl); [|reflexivity].
    unfold tail_row, tail_scores. qc_row.
  - apply (Hrow (Triple 0 2 0 []) Metric.__init__ eq_refl); [|reflexivity].
    unfold tail_row, tail_scores. qc_row.
Defined.

(** C1 at a failing input: TTransE with the L1 distance, entities on a
    line at 0, 1 and 3, translation 1, test triple (subject 0, object 1).
    The candidate objects lie at distances 1, 0, 2 from [s + rt]; the true
    object is the closest, no candidate is strictly closer, and [evaluate]
    records rank 3 for it. Head-ranking does the same to the subject. *)
Theorem distance_ranks_farthest_first :
  tail_row (Args.mk TTransE true Tail "bst.ckpt") line_mdl (Triple 0 1 0 [])
  = Ok [qc 1 1; qc 0 1; qc 2 1]
  ∧ count_below [qc 1 1; qc 0 1; qc 2 1] 1 = 0
  ∧ count_above [qc 1 1; qc 0 1; qc 2 1] 1 = 2
  ∧ (∀ self,
       evaluate (Args.mk TTransE true Tail "bst.ckpt")
         [Triple 0 1 0 []] line_mdl self
       = Metric.update 3 self)
  ∧ head_row (Args.mk TTransE true Head "bst.ckpt") line_mdl (Triple 0 1 0 [])
    = Ok [qc 0 1; qc 1 1; qc 3 1]
  ∧ (∀ self,
       evaluate (Args.mk TTransE true Head "bst.ckpt")
         [Triple 0 1 0 []] line_mdl self
       = Metric.update 3 self).
Proof.
  split; [unfold tail_row, tail_scores; qc_row|].
  split; [done|]. split; [done|].
  split; [intros self; apply bind_ret_unit|].
  split; [unfold head_row, head_scores; qc_row|].
  intros self. apply bind_ret_unit.
Qed.

(** * Further properties *)

(** ** Metric: what every reachable state satisfies *)

Module MetricInvariants.
Import Metric.
Local Open Scope Z_scope.

(** The state an update leaves, whatever the rank and the outcome. *)
Lemma update_state (r : Z) (self : t) :
  cnt (snd (update r self)) = cnt self + 1
  ∧ h_1 (snd (update r self))
    = (if bool_decide (r < 2) then h_1 self + 1 else h_1 self)
  ∧ h_3 (snd (update r self))
    = (if bool_decide (r < 4) then h_3 self + 1 else h_3 self)
  ∧ h_10 (snd (update r self))
    = (if bool_decide (r < 11) then h_10 self + 1 else h_10 self)
  ∧ mr (snd (update r self)) = mr self + r.
Proof.
  destruct (decide (r = 0)) as [->|Hr].
  - rewrite MetricFacts.update_zero. simpl. repeat split; lia.
  - by rewrite MetricFacts.update_nonzero.
Qed.

(** The hit counters are nested and bounded by the number of updates. *)
Lemma update_keeps_nesting (r : Z) (self : t) :
  0 ≤ h_1 self ≤ h_3 self ∧ h_3 self ≤ h_10 self ≤ cnt self →
  0 ≤ h_1 (snd (update r self)) ≤ h_3 (snd (update r self))
  ∧ h_3 (snd (update r self)) ≤ h_10 (snd (update r self))
    ≤ cnt (snd (update r self)).
Proof.
  intros Hinv. destruct (update_state r self) as (-> & -> & -> & -> & _).
  repeat case_bool_decide; lia.
Qed.

(** X1: the invariant [0 <= h_1 <= h_3 <= h_10 <= cnt], which a fresh
    [Metric] satisfies, is kept by any sequence of updates, whether the
    ranks are valid or not and whether or not one of the updates raised. *)
Theorem hits_nested (rs : list Z) (self : t) :
  0 ≤ h_1 self ≤ h_3 self ∧ h_3 self ≤ h_10 self ≤ cnt self →
  0 ≤ h_1 (snd (updates rs self)) ≤ h_3 (snd (updates rs self))
  ∧ h_3 (snd (updates rs self)) ≤ h_10 (snd (updates rs self))
    ≤ cnt (snd (updates rs self)).
Proof.
  revert self. induction rs as [|r rs IH]; intros self Hinv; [done|].
  unfold updates in *. cbn [for_each]. unfold mbind, M_bind.
  pose proof (update_keeps_nesting r self Hinv) as Hstep.
  destruct (update r self) as [[[]|e] self']; simpl in *; [|done].
  by apply IH.
Qed.

Lemma hits_nested_witness :
  0 ≤ h_1 (snd (updates [3; 0; 1] __init__))
    ≤ h_3 (snd (updates [3; 0; 1] __init__))
  ∧ h_3 (snd (updates [3; 0; 1] __init__))
    ≤ h_10 (snd (updates [3; 0; 1] __init__))
    ≤ cnt (snd (updates [3; 0; 1] __init__)).
Proof. apply (hits_nested [3; 0; 1] __init__). simpl. lia. Defined.

Lemma sum_bounds (n : Z) (rs : list Z) :
  Forall (λ r, 1 ≤ r ≤ n) rs →
  Z.of_nat (length rs) ≤ foldr Z.add 0 rs ≤ n * Z.of_nat (length rs).
Proof.
  induction 1 as [|r rs Hr _ IH]; simpl; [lia|].
  rewrite Nat2Z.inj_succ. nia.
Qed.

(** Ranks between 1 and [n] are all recorded; they move [mr] by at least
    the number of updates and at most [n] times that number, and with
    [n <= 10] every one of them is a hit at 10. *)
Lemma updates_in_range (n : Z) (rs : list Z) (self : t) :
  Forall (λ r, 1 ≤ r ≤ n) rs →
  fst (updates rs self) = Ok tt
  ∧ cnt (snd (updates rs self)) = cnt self + Z.of_nat (length rs)
  ∧ cnt (snd (updates rs self)) - cnt self
    ≤ mr (snd (updates rs self)) - mr self
    ≤ n * (cnt (snd (updates rs self)) - cnt self)
  ∧ (n ≤ 10 →
     h_10 (snd (updates rs self)) - h_10 self
     = cnt (snd (updates rs self)) - cnt self).
Proof.
  intros Hrs. rewrite MetricFacts.updates_nonzero.
  - simpl. split; [done|]. split; [done|].
    pose proof (sum_bounds n rs Hrs). split; [lia|]. intros Hn.
    replace (filter (λ r, r < 11) rs) with rs; [lia|].
    symmetry. clear -Hrs Hn. induction Hrs as [|r rs Hr _ IH]; [done|].
    rewrite filter_cons_True by lia. by f_equal.
  - eapply Forall_impl; [exact Hrs|]. simpl. lia.
Qed.

End MetricInvariants.

(** ** Ranking with ties *)

(** In a list of candidates sorted by descending score, the position of a
    candidate is at least the number of candidates that score strictly
    higher, and the candidates that score strictly lower all come later. *)
Lemma sorted_position_bounds (row : list Qc) (p : list nat) (k x : nat) :
  StronglySorted (desc row) p →
  p !! k = Some x →
  length (filter (λ j, (score row x < score row j)%Qc) p) ≤ k
  ∧ k + length (filter (λ j, (score row j < score row x)%Qc) p) < length p.
Proof.
  intros Hs. revert k.
  induction Hs as [|y p Hs IH Hy]; intros k Hk; [done|].
  rewrite Forall_forall in Hy. unfold desc in Hy.
  rewrite !filter_cons. destruct k as [|k]; simpl in Hk.
  - injection Hk as ->.
    rewrite !decide_False by (apply Qcle_ngt; reflexivity).
    rewrite (elem_of_nil_inv (filter (λ j, (score row x < score row j)%Qc) p)).
    + simpl. split; [lia|].
      pose proof (length_filter (λ j, (score row j < score row x)%Qc) p).
      lia.
    + intros j [Hj Hjp]%list_elem_of_filter.
      by apply Qclt_nge in Hj; apply Hj, Hy.
  - destruct (IH k Hk) as [Hlo Hhi].
    assert (x ∈ p) as Hxp by by eapply list_elem_of_lookup_2.
    rewrite (decide_False (P := (score row y < score row x)%Qc))
      by (apply Qcle_ngt; by apply Hy).
    simpl. split; [|lia].
    destruct (decide (score row x < score row y)%Qc); simpl; lia.
Qed.

(** The rank computed from a row of scores, ties or not: the candidate is
    counted after every strictly higher score and before every strictly
    lower one. *)
Lemma rank_of_bounds (row : list Qc) (x : nat) (r : Z) :
  rank_of row x = Ok r →
  (1 + Z.of_nat (count_above row x) ≤ r
   ≤ Z.of_nat (length row) - Z.of_nat (count_below row x))%Z.
Proof.
  unfold rank_of. intros Hr.
  destruct (argwhere_0_0 (argsort_desc row) x) as [k|] eqn:Hk;
    simpl in Hr; [|done].
  injection Hr as <-. apply argwhere_0_0_Ok in Hk as [Hk _].
  destruct (sorted_position_bounds row _ k x (argsort_desc_sorted row) Hk)
    as [Hlo Hhi].
  rewrite length_argsort_desc in Hhi.
  unfold count_above, count_below.
  rewrite <- !(argsort_desc_Permutation row). lia.
Qed.

Lemma recorded_rank_of (row : list Qc) (y : nat) (r : Z) :
  recorded row y r → rank_of row y = Ok r.
Proof.
  intros (k & -> & Hk & Hmin & _). unfold rank_of.
  by rewrite (proj2 (argwhere_0_0_Ok _ _ _) (conj Hk Hmin)).
Qed.

Section evaluate_more.
Context {vec : Type} `{Tensor vec}.
Implicit Types (args : Args.t) (mdl : module vec) (b : list triple).

(** On a batch of known entities [evaluate] is the sequence of updates
    with the head ranks and the tail ranks of its rows. *)
Lemma evaluate_ranks args mdl b :
  in_vocabulary mdl b →
  ∃ hs ts : list Z,
    mapM (head_rank args mdl) b = Ok hs
    ∧ mapM (tail_rank args mdl) b = Ok ts
    ∧ Forall2 (λ x r, ∃ row, head_row args mdl x = Ok row
                 ∧ length row = length (e_embed_weight mdl)
                 ∧ rank_of row (col0 x) = Ok r) b hs
    ∧ Forall2 (λ x r, ∃ row, tail_row args mdl x = Ok row
                 ∧ length row = length (e_embed_weight mdl)
                 ∧ rank_of row (col1 x) = Ok r) b ts
    ∧ ∀ self,
        evaluate args b mdl self
        = Metric.updates
            match Args.mode args with
            | Both => hs ++ ts
            | Head => hs
            | Tail => ts
            end self.
Proof.
  intros Hb.
  destruct (head_block args mdl b Hb) as (hs & Hhs & Hrec_h & Hh).
  destruct (tail_block args mdl b Hb) as (ts & Hts & Hrec_t & Ht).
  exists hs, ts. split; [done|]. split; [done|]. split; [|split].
  - eapply Forall2_impl; [exact Hrec_h|]. simpl. intros x r (v & Hv & Hrec).
    exists (head_scores args mdl v x). unfold head_row, getitem. rewrite Hv.
    split; [done|]. split; [apply length_head_scores|].
    by apply recorded_rank_of.
  - eapply Forall2_impl; [exact Hrec_t|]. simpl. intros x r (v & Hv & Hrec).
    exists (tail_scores args mdl v x). unfold tail_row, getitem. rewrite Hv.
    split; [done|]. split; [apply length_tail_scores|].
    by apply recorded_rank_of.
  - by apply evaluate_blocks.
Qed.

(** X2: with or without ties, every rank [evaluate] records counts the true
    entity after all candidates that score strictly higher and before all
    that score strictly lower; in particular it lies between 1 and the
    number of entities. *)
Theorem evaluate_rank_bounds args mdl b :
  in_vocabulary mdl b →
  ∃ hs ts : list Z,
    (∀ self,
       evaluate args b mdl self
       = Metric.updates
           match Args.mode args with
           | Both => hs ++ ts
           | Head => hs
           | Tail => ts
           end self)
    ∧ Forall2 (λ x r, ∃ row, head_row args mdl x = Ok row
                 ∧ (1 + Z.of_nat (count_above row (col0 x)) ≤ r
                    ≤ Z.of_nat (length (e_embed_weight mdl))
                      - Z.of_nat (count_below row (col0 x)))%Z) b hs
    ∧ Forall2 (λ x r, ∃ row, tail_row args mdl x = Ok row
                 ∧ (1 + Z.of_nat (count_above row (col1 x)) ≤ r
                    ≤ Z.of_nat (length (e_embed_weight mdl))
                      - Z.of_nat (count_below row (col1 x)))%Z) b ts.
Proof.
  intros Hb.
  destruct (evaluate_ranks args mdl b Hb) as (hs & ts & _ & _ & Hh & Ht & Hev).
  exists hs, ts. split; [done|]. split.
  - eapply Forall2_impl; [exact Hh|]. simpl. intros x r (row & Hrow & Hlen & Hr).
    exists row. split; [done|]. rewrite <- Hlen. by apply rank_of_bounds.
  - eapply Forall2_impl; [exact Ht|]. simpl. intros x r (row & Hrow & Hlen & Hr).
    exists row. split; [done|]. rewrite <- Hlen. by apply rank_of_bounds.
Qed.

Lemma ranks_in_range args mdl b (rs : list Z)
    (rowf : triple → result (list Qc)) (tgt : triple → nat) :
  Forall2 (λ x r, ∃ row, rowf x = Ok row
             ∧ length row = length (e_embed_weight mdl)
             ∧ rank_of row (tgt x) = Ok r) b rs →
  Forall (λ r, (1 ≤ r ≤ Z.of_nat (length (e_embed_weight mdl)))%Z) rs.
Proof.
  intros Hall. apply Forall_forall. intros r Hr.
  apply list_elem_of_lookup in Hr as [i Hi].
  destruct (Forall2_lookup_r _ _ _ _ _ Hall Hi)
    as (x & _ & row & _ & Hlen & Hrank).
  apply rank_of_bounds in Hrank. lia.
Qed.

(** X3: on a batch of known entities [evaluate] returns normally; the mean of
    the ranks it adds lies between 1 and the number [n] of entities
    ([mr] grows by at least the growth of [cnt] and at most [n] times it),
    and with at most ten entities every query is a hit at 10. *)
Theorem evaluate_mean_rank args mdl b (self : Metric.t) :
  in_vocabulary mdl b →
  fst (evaluate args b mdl self) = Ok tt
  ∧ (Metric.cnt (snd (evaluate args b mdl self)) - Metric.cnt self
     ≤ Metric.mr (snd (evaluate args b mdl self)) - Metric.mr self
     ≤ Z.of_nat (length (e_embed_weight mdl))
       * (Metric.cnt (snd (evaluate args b mdl self)) - Metric.cnt self))%Z
  ∧ (length (e_embed_weight mdl) ≤ 10 →
     (Metric.h_10 (snd (evaluate args b mdl self)) - Metric.h_10 self
      = Metric.cnt (snd (evaluate args b mdl self)) - Metric.cnt self)%Z).
Proof.
  intros Hb.
  destruct (evaluate_ranks args mdl b Hb) as (hs & ts & _ & _ & Hh & Ht & Hev).
  rewrite Hev.
  pose proof (ranks_in_range args mdl b hs _ _ Hh) as Hhs.
  pose proof (ranks_in_range args mdl b ts _ _ Ht) as Hts.
  set (n := Z.of_nat (length (e_embed_weight mdl))) in *.
  destruct (MetricInvariants.updates_in_range n
              match Args.mode args with
              | Both => hs ++ ts
              | Head => hs
              | Tail => ts
              end self) as (Hok & _ & Hmr & Hh10).
  { destruct (Args.mode args); [done..|]. by apply Forall_app. }
  split; [done|]. split; [done|]. intros Hn. apply Hh10. lia.
Qed.

End evaluate_more.

Lemma evaluate_rank_bounds_witness :
  ∃ hs ts : list Z,
    ∀ self,
      evaluate (Args.mk TADistMult false Both "bst.ckpt")
        [Triple 0 0 0 []; Triple 0 2 0 []] toy_mdl self
      = Metric.updates (hs ++ ts) self.
Proof.
  destruct (evaluate_rank_bounds (Args.mk TADistMult false Both "bst.ckpt")
              toy_mdl [Triple 0 0 0 []; Triple 0 2 0 []])
    as (hs & ts & Hev & _).
  - repeat constructor; simpl; lia.
  - by exists hs, ts.
Defined.

Lemma evaluate_mean_rank_witness :
  fst (evaluate (Args.mk TTransE true Both "bst.ckpt")
         [Triple 0 1 0 []; Triple 2 1 0 []] line_mdl Metric.__init__)
  = Ok tt.
Proof.
  apply (evaluate_mean_rank (Args.mk TTransE true Both "bst.ckpt") line_mdl
           [Triple 0 1 0 []; Triple 2 1 0 []] Metric.__init__).
  repeat constructor; simpl; lia.
Defined.

(** ** evaluate: modes, flags and failures *)

Section evaluate_modes.
Context {vec : Type} `{Tensor vec}.
Implicit Types (args : Args.t) (mdl : module vec) (b : list triple).

Lemma bind_split {St} (m k : M St unit) (st : St) :
  (m ;; k) st = ((m ;; mret tt) ;; (mret tt ;; k)) st.
Proof. unfold mbind, M_bind. by destruct (m st) as [[[]|e] st']. Qed.

(** X4: mode both is mode head followed by mode tail on the same batch, for
    every batch and every outcome: if the head pass raises, so does mode
    both, with the same state left behind. *)
Theorem evaluate_both_splits (m : model_name) (l : bool) (path : string)
    b mdl (self : Metric.t) :
  evaluate (Args.mk m l Both path) b mdl self
  = (evaluate (Args.mk m l Head path) b mdl ;;
     evaluate (Args.mk m l Tail path) b mdl) self.
Proof.
  unfold evaluate, _p. cbn [Args.model Args.mode Args.l1].
  rewrite !(bool_decide_eq_true_2 (Both ≠ Tail)) by done.
  rewrite !(bool_decide_eq_true_2 (Both ≠ Head)) by done.
  rewrite !(bool_decide_eq_true_2 (Head ≠ Tail)) by done.
  rewrite !(bool_decide_eq_false_2 (Head ≠ Head)) by (intros Hne; by apply Hne).
  rewrite !(bool_decide_eq_false_2 (Tail ≠ Tail)) by (intros Hne; by apply Hne).
  rewrite !(bool_decide_eq_true_2 (Tail ≠ Head)) by done.
  cbv zeta. apply bind_split.
Qed.

(** X5: for a model other than TTransE, [_p] is 2 whether or not [l1] is
    set, and so the flag changes nothing in [evaluate]: the distances are
    the Euclidean ones either way. *)
Theorem evaluate_ignores_l1 (m : model_name) (l l' : bool) (md : mode_name)
    (path : string) b mdl (self : Metric.t) :
  m ≠ TTransE →
  _p (Args.mk m l md path) = 2
  ∧ evaluate (Args.mk m l md path) b mdl self
    = evaluate (Args.mk m l' md path) b mdl self.
Proof.
  intros Hm. split.
  - unfold _p. cbn [Args.model Args.l1].
    by rewrite (bool_decide_eq_false_2 (m = TTransE)).
  - unfold evaluate, _p. cbn [Args.model Args.mode Args.l1].
    by rewrite !(bool_decide_eq_false_2 (m = TTransE)) by done.
Qed.

End evaluate_modes.

Section evaluate_failures.
Context {vec : Type} `{Tensor vec}.
Implicit Types (args : Args.t) (mdl : module vec) (b : list triple).

Lemma bind_Ok {St A B} (m : M St A) (k : A → M St B) (st st' : St) (a : A) :
  m st = (Ok a, st') → (m ≫= k) st = k a st'.
Proof. intros Hm. unfold mbind, M_bind. by rewrite Hm. Qed.

(** The embedding lookup raises as soon as one id is outside the table. *)
Lemma e_embed_Raise mdl (ids : list nat) :
  Exists (λ i, length (e_embed_weight mdl) ≤ i) ids →
  e_embed mdl ids = Raise IndexError.
Proof.
  unfold e_embed. induction 1 as [i ids Hi|i ids _ IH]; simpl.
  - by rewrite lookup_ge_None_2.
  - destruct (e_embed_weight mdl !! i); [|done]. simpl. by rewrite IH.
Qed.

(** An entity outside the table is in no sorted row. *)
Lemma argwhere_0_0_unknown (row : list Qc) (x : nat) :
  length row ≤ x → argwhere_0_0 (argsort_desc row) x = Raise IndexError.
Proof.
  intros Hx. unfold argwhere_0_0.
  destruct (argwhere (argsort_desc row) x) as [|k rest] eqn:Hk; [done|].
  assert (argwhere_0_0 (argsort_desc row) x = Ok k) as Hok
    by (unfold argwhere_0_0; by rewrite Hk).
  apply argwhere_0_0_Ok in Hok as [Hok _].
  apply list_elem_of_lookup_2, elem_of_argsort_desc in Hok. lia.
Qed.

(** The loop records the rows it can rank and stops at the first row whose
    entity is in no sorted row. *)
Lemma record_ranks_stops_from (n : nat) (pre rows1 rows2 : list (list nat))
    (row : list nat) (xs1 xs2 : list nat) (x : nat) (ranks1 : list Z)
    (self : Metric.t) :
  length pre = n →
  Forall3 (λ row x r, ∃ k, argwhere_0_0 row x = Ok k
                           ∧ r = (Z.of_nat k + 1)%Z) rows1 xs1 ranks1 →
  argwhere_0_0 row x = Raise IndexError →
  for_each (imap (λ i x, (n + i, x)) (xs1 ++ x :: xs2)) (λ '(i, x),
    row ← lift (getitem (pre ++ rows1 ++ row :: rows2) i);
    k ← lift (argwhere_0_0 row x);
    Metric.update (Z.of_nat k + 1)) self
  = (Raise IndexError, snd (Metric.updates ranks1 self)).
Proof.
  intros Hn Hall Hfail. revert n pre Hn self.
  induction Hall as [|row0 x0 r rows1 xs1 ranks1 (k & Hk & ->) _ IH];
    intros n pre Hn self.
  - cbn [app]. rewrite imap_cons. cbn [for_each].
    assert (getitem (pre ++ row :: rows2) (n + 0) = Ok row) as ->.
    { unfold getitem. by rewrite Nat.add_0_r, <- Hn, list_lookup_middle. }
    change (lift (Ok row) ≫= ?f) with (f row). cbv beta. rewrite Hfail.
    reflexivity.
  - rewrite <- !app_comm_cons, imap_cons. unfold Metric.updates.
    cbn [for_each].
    assert (getitem (pre ++ row0 :: rows1 ++ row :: rows2) (n + 0) = Ok row0)
      as ->.
    { unfold getitem. by rewrite Nat.add_0_r, <- Hn, list_lookup_middle. }
    change (lift (Ok row0) ≫= ?f) with (f row0). cbv beta. rewrite Hk.
    change (lift (Ok k) ≫= ?f) with (f k). cbv beta.
    pose proof (MetricFacts.update_nonzero (Z.of_nat k + 1) self
                  ltac:(lia)) as Hupd.
    rewrite !(bind_Ok _ _ _ _ _ Hupd).
    rewrite (imap_ext _ (λ i x, (S n + i, x))).
    + rewrite (cons_middle row0 pre), app_assoc.
      apply (IH (S n) (pre ++ [row0])).
      rewrite length_app. simpl. lia.
    + intros i y _. simpl. f_equal. lia.
Qed.

(** Ranking a batch whose row [x] names an unknown entity to be ranked. *)
Lemma ranking_stops mdl (emb target : triple → nat)
    (sc : vec → triple → list Qc) (f : triple → result Z)
    (b1 b2 : list triple) (x : triple) (vs : list vec) (self : Metric.t) :
  (∀ v y, length (sc v y) = length (e_embed_weight mdl)) →
  (∀ v y, e_embed_weight mdl !! emb y = Some v →
          f y = rank_of (sc v y) (target y)) →
  Forall2 (λ y v, e_embed_weight mdl !! emb y = Some v) (b1 ++ x :: b2) vs →
  Forall (λ y, target y < length (e_embed_weight mdl)) b1 →
  length (e_embed_weight mdl) ≤ target x →
  ∃ rs1, mapM f b1 = Ok rs1
       ∧ record_ranks (zip_with (λ v y, argsort_desc (sc v y)) vs
                         (b1 ++ x :: b2))
           (target <$> (b1 ++ x :: b2)) self
         = (Raise IndexError, snd (Metric.updates rs1 self)).
Proof.
  intros Hlen Hf Hvs Ht Hx.
  apply Forall2_app_inv_l in Hvs as (vs1 & vs' & Hvs1 & Hvs' & ->).
  apply Forall2_cons_inv_l in Hvs' as (v & vs2 & Hv & Hvs2 & ->).
  destruct (ranked_rows mdl emb target sc f b1 vs1 Hlen Hf Hvs1 Ht)
    as (rs1 & Hrs1 & H3 & _).
  exists rs1. split; [done|].
  rewrite zip_with_app by (symmetry; by eapply Forall2_length).
  rewrite fmap_app. simpl.
  apply (record_ranks_stops_from 0 []); [done..|].
  apply argwhere_0_0_unknown. by rewrite Hlen.
Qed.

(** X6: when an embedding that the pass looks up first is missing, [evaluate]
    raises IndexError before anything is recorded: an unknown object in
    modes head and both, an unknown subject in mode tail. *)
Theorem evaluate_unknown_embedding args mdl b (self : Metric.t) :
  Exists (λ x, length (e_embed_weight mdl)
               ≤ if bool_decide (Args.mode args = Tail) then col0 x
                 else col1 x) b →
  evaluate args b mdl self = (Raise IndexError, self).
Proof.
  intros Hex. unfold evaluate. cbv zeta.
  destruct (Args.mode args); simpl in *.
  - rewrite (e_embed_Raise mdl (col1 <$> b))
      by (rewrite Exists_fmap; exact Hex).
    reflexivity.
  - rewrite (e_embed_Raise mdl (col0 <$> b))
      by (rewrite Exists_fmap; exact Hex).
    reflexivity.
  - rewrite (e_embed_Raise mdl (col1 <$> b))
      by (rewrite Exists_fmap; exact Hex).
    reflexivity.
Qed.

(** The two one-sided passes on a batch whose row [x] names an unknown
    entity to be ranked. *)
Lemma evaluate_stops_at args mdl (b1 b2 : list triple) (x : triple)
    (self : Metric.t) :
  in_vocabulary mdl b1 →
  (Args.mode args = Tail →
   Forall (λ y, col0 y < length (e_embed_weight mdl)) (x :: b2) →
   length (e_embed_weight mdl) ≤ col1 x →
   ∃ ts1, mapM (tail_rank args mdl) b1 = Ok ts1
        ∧ evaluate args (b1 ++ x :: b2) mdl self
          = (Raise IndexError, snd (Metric.updates ts1 self))
        ∧ Metric.cnt (snd (evaluate args (b1 ++ x :: b2) mdl self))
          = (Metric.cnt self + Z.of_nat (length b1))%Z)
  ∧ (Args.mode args = Head →
     Forall (λ y, col1 y < length (e_embed_weight mdl)) (x :: b2) →
     length (e_embed_weight mdl) ≤ col0 x →
     ∃ hs1, mapM (head_rank args mdl) b1 = Ok hs1
          ∧ evaluate args (b1 ++ x :: b2) mdl self
            = (Raise IndexError, snd (Metric.updates hs1 self))
          ∧ Metric.cnt (snd (evaluate args (b1 ++ x :: b2) mdl self))
            = (Metric.cnt self + Z.of_nat (length b1))%Z).
Proof.
  intros Hb1. split; intros Hmode Hemb Hx.
  - destruct (e_embed_Ok mdl (col0 <$> (b1 ++ x :: b2))) as (vs & Hvs & Hall).
    { apply Forall_fmap, Forall_app. split; [|done].
      eapply Forall_impl; [exact Hb1|]. by intros y [? _]. }
    apply Forall2_fmap_l in Hall.
    destruct (ranking_stops mdl col0 col1 (tail_scores args mdl)
                (tail_rank args mdl) b1 b2 x vs self)
      as (ts1 & Hts1 & Hrec).
    + apply length_tail_scores.
    + intros v y Hv. unfold tail_rank, tail_row, getitem. by rewrite Hv.
    + done.
    + eapply Forall_impl; [exact Hb1|]. by intros y [_ ?].
    + done.
    + assert (evaluate args (b1 ++ x :: b2) mdl self
              = (Raise IndexError, snd (Metric.updates ts1 self))) as Hev.
      { unfold evaluate. cbv zeta. rewrite rt_embed_rows, Hmode. simpl.
        rewrite Hvs. change (lift (Ok vs) ≫= ?f) with (f vs). cbv beta.
        rewrite tail_rows. exact Hrec. }
      exists ts1. split; [done|]. split; [done|]. rewrite Hev. simpl.
      destruct (ranked_rows mdl col0 col1 (tail_scores args mdl)
                  (tail_rank args mdl) b1 (take (length b1) vs))
        as (ts' & Hts' & _ & Hrk).
      * apply length_tail_scores.
      * intros v y Hv. unfold tail_rank, tail_row, getitem. by rewrite Hv.
      * apply Forall2_app_inv_l in Hall as (vs1 & vs' & Hvs1 & _ & ->).
        by rewrite (Forall2_length _ _ _ Hvs1), take_app_length.
      * eapply Forall_impl; [exact Hb1|]. by intros y [_ ?].
      * rewrite Hts1 in Hts'. injection Hts' as <-.
        rewrite MetricFacts.updates_nonzero.
        -- simpl. by rewrite (mapM_length _ _ _ Hts1).
        -- apply Forall_forall. intros r Hr.
           apply list_elem_of_lookup in Hr as [i Hi].
           destruct (Forall2_lookup_r _ _ _ _ _ Hrk Hi)
             as (y & _ & v & _ & Hrec').
           apply recorded_positive in Hrec'. lia.
  - destruct (e_embed_Ok mdl (col1 <$> (b1 ++ x :: b2))) as (vs & Hvs & Hall).
    { apply Forall_fmap, Forall_app. split; [|done].
      eapply Forall_impl; [exact Hb1|]. by intros y [_ ?]. }
    apply Forall2_fmap_l in Hall.
    destruct (ranking_stops mdl col1 col0 (head_scores args mdl)
                (head_rank args mdl) b1 b2 x vs self)
      as (hs1 & Hhs1 & Hrec).
    + apply length_head_scores.
    + intros v y Hv. unfold head_rank, head_row, getitem. by rewrite Hv.
    + done.
    + eapply Forall_impl; [exact Hb1|]. by intros y [? _].
    + done.
    + assert (evaluate args (b1 ++ x :: b2) mdl self
              = (Raise IndexError, snd (Metric.updates hs1 self))) as Hev.
      { unfold evaluate. cbv zeta. rewrite rt_embed_rows, Hmode. simpl.
        rewrite Hvs. change (lift (Ok vs) ≫= ?f) with (f vs). cbv beta.
        rewrite head_rows, bind_ret_unit. exact Hrec. }
      exists hs1. split; [done|]. split; [done|]. rewrite Hev. simpl.
      destruct (ranked_rows mdl col1 col0 (head_scores args mdl)
                  (head_rank args mdl) b1 (take (length b1) vs))
        as (hs' & Hhs' & _ & Hrk).
      * apply length_head_scores.
      * intros v y Hv. unfold head_rank, head_row, getitem. by rewrite Hv.
      * apply Forall2_app_inv_l in Hall as (vs1 & vs' & Hvs1 & _ & ->).
        by rewrite (Forall2_length _ _ _ Hvs1), take_app_length.
      * eapply Forall_impl; [exact Hb1|]. by intros y [? _].
      * rewrite Hhs1 in Hhs'. injection Hhs' as <-.
        rewrite MetricFacts.updates_nonzero.
        -- simpl. by rewrite (mapM_length _ _ _ Hhs1).
        -- apply Forall_forall. intros r Hr.
           apply list_elem_of_lookup in Hr as [i Hi].
           destruct (Forall2_lookup_r _ _ _ _ _ Hrk Hi)
             as (y & _ & v & _ & Hrec').
           apply recorded_positive in Hrec'. lia.
Qed.

(** X7: when the entity to be ranked is unknown but the embeddings the pass
    looks up are there (mode tail with an unknown object, mode head with
    an unknown subject), [evaluate] records the rows before the first such
    row and then raises IndexError: the accumulator is left as the rows
    before it alone would leave it. *)
Theorem evaluate_stops_midway args mdl (b1 b2 : list triple) (x : triple)
    (self : Metric.t) :
  Args.mode args ≠ Both →
  in_vocabulary mdl b1 →
  Forall (λ y, (if bool_decide (Args.mode args = Tail) then col0 y
                else col1 y) < length (e_embed_weight mdl)) (x :: b2) →
  length (e_embed_weight mdl)
  ≤ (if bool_decide (Args.mode args = Tail) then col1 x else col0 x) →
  fst (evaluate args b1 mdl self) = Ok tt
  ∧ evaluate args (b1 ++ x :: b2) mdl self
    = (Raise IndexError, snd (evaluate args b1 mdl self))
  ∧ Metric.cnt (snd (evaluate args (b1 ++ x :: b2) mdl self))
    = (Metric.cnt self + Z.of_nat (length b1))%Z.
Proof.
  intros Hmode Hb1 Hemb Hx.
  destruct (evaluate_ranks args mdl b1 Hb1)
    as (hs & ts & Hhs & Hts & Hh & Ht & Hev).
  destruct (evaluate_stops_at args mdl b1 b2 x self Hb1) as [Htail Hhead].
  rewrite Hev.
  destruct (Args.mode args) eqn:Hm; [|clear Hhead|done].
  - clear Htail. rewrite bool_decide_eq_false_2 in Hemb, Hx by done.
    destruct (Hhead eq_refl Hemb Hx) as (hs' & Hhs' & -> & Hcnt).
    rewrite Hhs in Hhs'. injection Hhs' as <-.
    split; [|done]. rewrite MetricFacts.updates_nonzero; [done|].
    eapply Forall_impl; [exact (ranks_in_range args mdl b1 hs _ _ Hh)|].
    simpl. lia.
  - rewrite bool_decide_eq_true_2 in Hemb, Hx by done.
    destruct (Htail eq_refl Hemb Hx) as (ts' & Hts' & -> & Hcnt).
    rewrite Hts in Hts'. injection Hts' as <-.
    split; [|done]. rewrite MetricFacts.updates_nonzero; [done|].
    eapply Forall_impl; [exact (ranks_in_range args mdl b1 ts _ _ Ht)|].
    simpl. lia.
Qed.

End evaluate_failures.


Lemma evaluate_ignores_l1_witness :
  _p (Args.mk TATransE true Both "bst.ckpt") = 2
  ∧ evaluate (Args.mk TATransE true Both "bst.ckpt")
      [Triple 0 1 0 []; Triple 2 1 0 []] line_mdl Metric.__init__
    = evaluate (Args.mk TATransE false Both "bst.ckpt")
        [Triple 0 1 0 []; Triple 2 1 0 []] line_mdl Metric.__init__.
Proof. apply evaluate_ignores_l1. discriminate. Defined.

Lemma evaluate_unknown_embedding_witness :
  evaluate (Args.mk TTransE false Both "bst.ckpt")
    [Triple 0 1 0 []; Triple 2 7 0 []] line_mdl Metric.__init__
  = (Raise IndexError, Metric.__init__).
Proof.
  apply (evaluate_unknown_embedding (Args.mk TTransE false Both "bst.ckpt")
           line_mdl [Triple 0 1 0 []; Triple 2 7 0 []] Metric.__init__).
  apply Exists_cons_tl, Exists_cons_hd. simpl. lia.
Defined.

Lemma evaluate_stops_midway_witness :
  fst (evaluate (Args.mk TTransE false Tail "bst.ckpt")
         [Triple 0 1 0 []] line_mdl Metric.__init__) = Ok tt
  ∧ evaluate (Args.mk TTransE false Tail "bst.ckpt")
      ([Triple 0 1 0 []] ++ Triple 2 7 0 [] :: [Triple 1 2 0 []])
      line_mdl Metric.__init__
    = (Raise IndexError,
       snd (evaluate (Args.mk TTransE false Tail "bst.ckpt")
              [Triple 0 1 0 []] line_mdl Metric.__init__))
  ∧ Metric.cnt
      (snd (evaluate (Args.mk TTransE false Tail "bst.ckpt")
              ([Triple 0 1 0 []] ++ Triple 2 7 0 [] :: [Triple 1 2 0 []])
              line_mdl Metric.__init__))
    = (Metric.cnt Metric.__init__ + Z.of_nat (length [Triple 0 1 0 []]))%Z.
Proof.
  refine (evaluate_stops_midway (Args.mk TTransE false Tail "bst.ckpt")
            line_mdl [Triple 0 1 0 []] [Triple 1 2 0 []] (Triple 2 7 0 [])
            Metric.__init__ _ _ _ _).
  - discriminate.
  - repeat constructor; simpl; lia.
  - repeat constructor; simpl; lia.
  - simpl. lia.
Defined.

(** ** Metric: the metrics of a run *)

(** X9: after updates with the ranks [rs] (at least one, none of them
    zero) on a fresh [Metric], [dict(mtr)] is the five metrics in the
    order H1, H3, H10, MR, MRR, each a quotient by the number of ranks:
    of the numbers of ranks below 2, 4 and 11, of the sum of the ranks,
    and of the sum of their reciprocals added up in update order; and
    [str(mtr)] prints the same five quotients. *)
Theorem metrics_of_updates (repr : float → string) (rs : list Z) :
  rs ≠ [] →
  Forall (λ r, r ≠ 0%Z) rs →
  Metric.__iter__ (snd (Metric.updates rs Metric.__init__))
  = Ok [("metric/H1",
         (float_of_int (Z.of_nat (length (filter (λ r, (r < 2)%Z) rs)))
          / float_of_int (Z.of_nat (length rs)))%float);
        ("metric/H3",
         (float_of_int (Z.of_nat (length (filter (λ r, (r < 4)%Z) rs)))
          / float_of_int (Z.of_nat (length rs)))%float);
        ("metric/H10",
         (float_of_int (Z.of_nat (length (filter (λ r, (r < 11)%Z) rs)))
          / float_of_int (Z.of_nat (length rs)))%float);
        ("metric/MR",
         (float_of_int (foldr Z.add 0%Z rs)
          / float_of_int (Z.of_nat (length rs)))%float);
        ("metric/MRR",
         (foldl (λ acc r, acc + 1 / float_of_int r) 0 rs
          / float_of_int (Z.of_nat (length rs)))%float)]
  ∧ Metric.__str__ repr (snd (Metric.updates rs Metric.__init__))
    = Ok (String.concat EmptyString
            [Metric.nl; "H@1: ";
             repr (float_of_int
                     (Z.of_nat (length (filter (λ r, (r < 2)%Z) rs)))
                   / float_of_int (Z.of_nat (length rs)))%float;
             Metric.nl; "H@3: ";
             repr (float_of_int
                     (Z.of_nat (length (filter (λ r, (r < 4)%Z) rs)))
                   / float_of_int (Z.of_nat (length rs)))%float;
             Metric.nl; "H@10: ";
             repr (float_of_int
                     (Z.of_nat (length (filter (λ r, (r < 11)%Z) rs)))
                   / float_of_int (Z.of_nat (length rs)))%float;
             Metric.nl; "MR: ";
             repr (float_of_int (foldr Z.add 0%Z rs)
                   / float_of_int (Z.of_nat (length rs)))%float;
             Metric.nl; "MRR: ";
             repr (foldl (λ acc r, acc + 1 / float_of_int r) 0 rs
                   / float_of_int (Z.of_nat (length rs)))%float;
             Metric.nl]).
Proof.
  intros Hne Hnz. rewrite MetricFacts.updates_nonzero by done.
  unfold Metric.__iter__, Metric.__str__, Metric._normalize, int_truediv,
    float_truediv.
  cbn [snd Metric.cnt Metric.h_1 Metric.h_3 Metric.h_10 Metric.mr Metric.mrr
       Metric.__init__].
  rewrite !Z.add_0_l.
  rewrite !decide_False by (destruct rs; [done|simpl; lia]).
  split; reflexivity.
Qed.

Lemma metrics_of_updates_witness :
  Metric.__iter__ (snd (Metric.updates [1; 3; 12]%Z Metric.__init__))
  = Ok [("metric/H1", (float_of_int 1 / float_of_int 3)%float);
        ("metric/H3", (float_of_int 2 / float_of_int 3)%float);
        ("metric/H10", (float_of_int 2 / float_of_int 3)%float);
        ("metric/MR", (float_of_int 16 / float_of_int 3)%float);
        ("metric/MRR",
         ((0 + 1 / float_of_int 1 + 1 / float_of_int 3
           + 1 / float_of_int 12) / float_of_int 3)%float)].
Proof.
  refine (proj1 (metrics_of_updates (λ _, EmptyString) [1; 3; 12]%Z _ _)).
  - discriminate.
  - repeat constructor; discriminate.
Defined.

(** ** checkpoint and resume *)

Section checkpoint_facts.
Context {state_dict : Type}.
Context (os_path_join : string → string → string) (str : argval → string).
Implicit Types (args : Namespace.t) (w : objects state_dict)
  (d : disk state_dict) (rt : runtime state_dict) (a : Args.t)
  (fs : filesystem state_dict).

(** X10: the file name lists the eight hyper-parameters of [inc] by name, in
    alphabetical order, whatever order [vars] has them in; nothing else
    of the arguments (data set, epochs, batch size, mode, ...) is in
    it. *)
Theorem fn_hyperparameters args :
  fn str args
  = String.concat "-"
      ["dropout_" +:+ str (Namespace.dropout args);
       "embedding_size_" +:+ str (AInt (Namespace.embedding_size args));
       "l1_" +:+ str (ABool (Namespace.l1 args));
       "learning_rate_" +:+ str (AFloat (Namespace.learning_rate args));
       "margin_" +:+ str (AInt (Namespace.margin args));
       "model_" +:+ str (AStr (model_str (Namespace.model args)));
       "negative_samples_"
         +:+ str (AInt (Namespace.negative_samples args));
       "weight_decay_" +:+ str (Namespace.weight_decay args)]
    +:+ ".ckpt".
Proof. reflexivity. Qed.

(** What [checkpoint] leaves behind, by the first write that is refused:
    nothing when the directory cannot be made, the directory when the
    epoch file cannot be written, the directory and the epoch file when
    the copy to the best file fails; and all of it when every write goes
    through. *)
Lemma checkpoint_outcome fs (cuda : bool) args (e : Z) w
    (bst_ls : pyobj state_dict) (is_bst : bool) d :
  let bpth := os_path_join "./models" (Namespace.dataset args) in
  let ckpt := checkpoint_dict cuda e w bst_ls in
  let d1 := {| files := files d; dirs := {[bpth]} ∪ dirs d |} in
  let d2 := {| files := <[epoch_file os_path_join str args e := ckpt]>
                          (files d);
               dirs := {[bpth]} ∪ dirs d |} in
  let d3 := {| files := <[bst_file os_path_join str args := ckpt]>
                          (<[epoch_file os_path_join str args e := ckpt]>
                             (files d));
               dirs := {[bpth]} ∪ dirs d |} in
  checkpoint os_path_join str fs cuda args e w bst_ls is_bst d
  = match makedirs_outcome fs d bpth with
    | Raise x => (Raise x, d)
    | Ok _ =>
        match save_outcome fs d1 (epoch_file os_path_join str args e) with
        | Raise x => (Raise x, d1)
        | Ok _ =>
            if is_bst then
              match copyfile_outcome fs d2
                      (epoch_file os_path_join str args e)
                      (bst_file os_path_join str args) with
              | Raise x => (Raise x, d2)
              | Ok _ => (Ok tt, d3)
              end
            else (Ok tt, d2)
        end
    end.
Proof.
  cbv zeta.
  unfold checkpoint, os_makedirs, torch_save, shutil_copyfile, modify, get.
  unfold mbind, M_bind, mret, M_ret, lift. cbn [files dirs].
  destruct (makedirs_outcome fs d _) as [[]|x]; [|done].
  destruct (save_outcome fs _ _) as [[]|x]; [|done].
  destruct is_bst; [|done]. cbn [files dirs]. rewrite lookup_insert_eq.
  by destruct (copyfile_outcome fs _ _ _) as [[]|x].
Qed.

(** Either file a [checkpoint] that returned wrote holds the dictionary
    it built. *)
Lemma checkpoint_written fs (cuda : bool) args (e : Z) w
    (bst_ls : pyobj state_dict) (is_bst : bool) d (path : string) :
  fst (checkpoint os_path_join str fs cuda args e w bst_ls is_bst d)
  = Ok tt →
  path = epoch_file os_path_join str args e
  ∨ (is_bst = true ∧ path = bst_file os_path_join str args) →
  files (snd (checkpoint os_path_join str fs cuda args e w bst_ls is_bst d))
    !! path
  = Some (checkpoint_dict cuda e w bst_ls).
Proof.
  rewrite checkpoint_outcome. cbv zeta.
  destruct (makedirs_outcome fs d _) as [[]|x]; [|done].
  destruct (save_outcome fs _ _) as [[]|x]; [|done].
  intros Hok [->|[-> ->]].
  - destruct is_bst; [|by cbn; rewrite lookup_insert_eq].
    destruct (copyfile_outcome fs _ _ _) as [[]|x]; [|done]. cbn.
    destruct (decide (bst_file os_path_join str args
                      = epoch_file os_path_join str args e)) as [->|Hne].
    + by rewrite lookup_insert_eq.
    + rewrite lookup_insert_ne by done. by rewrite lookup_insert_eq.
  - destruct (copyfile_outcome fs _ _ _) as [[]|x]; [|done]. cbn.
    by rewrite lookup_insert_eq.
Qed.

(** [resume] on a file that holds the dictionary of [checkpoint]. *)
Lemma resume_checkpoint_dict rt a w w0 (cuda : bool) (e : Z)
    (bst_ls : pyobj state_dict) :
  os_path_exists rt (Args.resume a) = true →
  torch_load rt (Args.resume a) = Ok (checkpoint_dict cuda e w bst_ls) →
  installs rt →
  resume rt a w0
  = (if cuda_is_available rt && negb cuda then Raise KeyError
     else Ok (PInt e, bst_ls),
     {| mdl := mdl w; opt := opt w;
        amp := if cuda_is_available rt && cuda then amp w else amp w0;
        loads := Args.resume a :: loads w0 |}).
Proof.
  intros Hex Hload Hinst. unfold resume. rewrite Hex. simpl.
  unfold mbind, M_bind, modify, lift, load_into, get, mret, M_ret,
    dict_getitem.
  rewrite Hload. unfold checkpoint_dict.
  destruct cuda, (cuda_is_available rt); simpl;
    repeat (rewrite ?lookup_insert_eq, ?lookup_insert_ne, ?lookup_empty
              by done;
            cbv [mbind M_bind modify lift get mret M_ret];
            rewrite ?Hinst; simpl);
    done.
Qed.

(** X11, round trip: when [checkpoint] returned normally, resuming from a
    file it wrote, on a machine with CUDA as at save time, returns the
    saved epoch and best loss and puts the saved model and optimizer
    states in place, and the saved [amp] state when there is CUDA. *)
Theorem checkpoint_resume_round_trip fs (cuda : bool) args (e : Z) w
    (bst_ls : pyobj state_dict) (is_bst : bool) d rt a w0 :
  fst (checkpoint os_path_join str fs cuda args e w bst_ls is_bst d)
  = Ok tt →
  reads rt
    (snd (checkpoint os_path_join str fs cuda args e w bst_ls is_bst d)) →
  installs rt →
  cuda_is_available rt = cuda →
  Args.resume a = epoch_file os_path_join str args e
  ∨ (is_bst = true ∧ Args.resume a = bst_file os_path_join str args) →
  resume rt a w0
  = (Ok (PInt e, bst_ls),
     {| mdl := mdl w; opt := opt w;
        amp := if cuda then amp w else amp w0;
        loads := Args.resume a :: loads w0 |}).
Proof.
  intros Hok Hreads Hinst Hcuda Hpath.
  destruct (Hreads _ _ (checkpoint_written fs cuda args e w bst_ls is_bst d
                          _ Hok Hpath)) as [Hex Hload].
  rewrite (resume_checkpoint_dict rt a w w0 cuda e bst_ls Hex Hload Hinst).
  rewrite Hcuda. by destruct cuda.
Qed.

(** X12: a checkpoint saved without CUDA cannot be resumed with CUDA:
    [resume] raises KeyError at [ckpt['amp']], after the model and the
    optimizer have already been replaced by the saved ones. The other way
    round works, and leaves [amp] alone. *)
Theorem resume_cuda_mismatch fs (cuda : bool) args (e : Z) w
    (bst_ls : pyobj state_dict) (is_bst : bool) d rt a w0 :
  fst (checkpoint os_path_join str fs cuda args e w bst_ls is_bst d)
  = Ok tt →
  reads rt
    (snd (checkpoint os_path_join str fs cuda args e w bst_ls is_bst d)) →
  installs rt →
  cuda_is_available rt = negb cuda →
  Args.resume a = epoch_file os_path_join str args e
  ∨ (is_bst = true ∧ Args.resume a = bst_file os_path_join str args) →
  resume rt a w0
  = (if cuda then Ok (PInt e, bst_ls) else Raise KeyError,
     {| mdl := mdl w; opt := opt w; amp := amp w0;
        loads := Args.resume a :: loads w0 |}).
Proof.
  intros Hok Hreads Hinst Hcuda Hpath.
  destruct (Hreads _ _ (checkpoint_written fs cuda args e w bst_ls is_bst d
                          _ Hok Hpath)) as [Hex Hload].
  rewrite (resume_checkpoint_dict rt a w w0 cuda e bst_ls Hex Hload Hinst).
  rewrite Hcuda. by destruct cuda.
Qed.

(** X13: without CUDA [resume] never touches [amp], whatever the file holds
    and whether or not it raises. *)
Theorem resume_without_cuda_keeps_amp rt a w :
  cuda_is_available rt = false →
  amp (snd (resume rt a w)) = amp w.
Proof.
  intros Hcuda. unfold resume. rewrite Hcuda.
  destruct (os_path_exists rt (Args.resume a)); simpl; [|done].
  unfold mbind, M_bind, modify, lift, load_into, get. simpl.
  destruct (torch_load rt (Args.resume a)) as [ckpt|]; [|done].
  repeat (cbv [mbind M_bind modify lift get mret M_ret]; simpl;
          match goal with
    | |- context [dict_getitem ?d ?k] => destruct (dict_getitem d k)
    | |- context [load_state_dict ?r ?x ?y] => destruct (load_state_dict r x y)
    end); done.
Qed.

(** The runtime made from a disk reads it and installs what it loads. *)
Lemma disk_runtime_reads (cuda : bool) d : reads (disk_runtime cuda d) d.
Proof.
  intros path obj Hobj. unfold disk_runtime. simpl. rewrite Hobj.
  split; [|done]. by apply bool_decide_eq_true_2.
Qed.

Lemma disk_runtime_installs (cuda : bool) d : installs (disk_runtime cuda d).
Proof. by intros cur sd. Qed.

End checkpoint_facts.

(** On a file system that refuses [torch.save], [checkpoint] raises and
    no file is written. *)
Example checkpoint_refused :
  checkpoint join_ex str_ex fs_readonly_ex true args_ex 7 trained_ex
    (PFloat 0.5%float) true {| files := ∅; dirs := ∅ |}
  = (Raise PermissionError,
     {| files := ∅; dirs := {[join_ex "./models" "icews14"]} ∪ ∅ |}).
Proof. by rewrite checkpoint_outcome. Qed.

Lemma checkpoint_resume_round_trip_witness :
  resume (disk_runtime true (disk_ex true))
    (Args.mk TTransE false Both (bst_file join_ex str_ex args_ex)) fresh_ex
  = (Ok (PInt 7, PFloat 0.5%float),
     {| mdl := mdl trained_ex; opt := opt trained_ex;
        amp := if true then amp trained_ex else amp fresh_ex;
        loads := Args.resume
                   (Args.mk TTransE false Both
                      (bst_file join_ex str_ex args_ex))
                 :: loads fresh_ex |}).
Proof.
  apply (checkpoint_resume_round_trip join_ex str_ex fs_ex true args_ex 7
           trained_ex (PFloat 0.5%float) true {| files := ∅; dirs := ∅ |}
           (disk_runtime true (disk_ex true))
           (Args.mk TTransE false Both (bst_file join_ex str_ex args_ex))
           fresh_ex).
  - by rewrite checkpoint_outcome.
  - apply disk_runtime_reads.
  - apply disk_runtime_installs.
  - reflexivity.
  - right. split; reflexivity.
Defined.

Lemma resume_cuda_mismatch_witness :
  resume (disk_runtime true (disk_ex false))
    (Args.mk TTransE false Both (epoch_file join_ex str_ex args_ex 7))
    fresh_ex
  = (if false then Ok (PInt 7, PFloat 0.5%float) else Raise KeyError,
     {| mdl := mdl trained_ex; opt := opt trained_ex; amp := amp fresh_ex;
        loads := Args.resume
                   (Args.mk TTransE false Both
                      (epoch_file join_ex str_ex args_ex 7))
                 :: loads fresh_ex |}).
Proof.
  apply (resume_cuda_mismatch join_ex str_ex fs_ex false args_ex 7
           trained_ex (PFloat 0.5%float) true {| files := ∅; dirs := ∅ |}
           (disk_runtime true (disk_ex false))
           (Args.mk TTransE false Both (epoch_file join_ex str_ex args_ex 7))
           fresh_ex).
  - by rewrite checkpoint_outcome.
  - apply disk_runtime_reads.
  - apply disk_runtime_installs.
  - reflexivity.
  - left. reflexivity.
Defined.

Lemma resume_without_cuda_keeps_amp_witness :
  amp (snd (resume (disk_runtime false (disk_ex true))
              (Args.mk TTransE false Both
                 (epoch_file join_ex str_ex args_ex 7)) fresh_ex))
  = amp fresh_ex.
Proof. apply resume_without_cuda_keeps_amp. reflexivity. Defined.
